(** * Profile update handler and Cloudinary helper: a shallow embedding

    Sources embedded here:
    - the profile update API route ([handler], [parseFormData],
      [checkUserExists], [updateUser]);
    - [src/utils/upload/Dcloudinary.ts] ([uploadImage], [deleteImage],
      [extractPublicIdFromUrl]).

    JavaScript strings are modelled as Rocq strings.  Every string operation
    the code uses searches for an ASCII pattern (["/"], ["."], ["Bearer "]),
    so working on bytes or on UTF-16 code units cuts the text at the same
    places. *)

From Stdlib Require Import ZArith Strings.String Strings.Ascii Numbers.DecimalString.
From stdpp Require Import gmap strings list fin_maps.

Local Open Scope Z_scope.
Local Open Scope string_scope.

Set Warnings "-register-all,-clear-no-such-hyp".

(** ** JavaScript primitives used by the code *)

Module JS.

(** Template-literal rendering of an integer, as in [`$${paramIndex++}`]. *)
Definition Z_to_string (z : Z) : string := NilEmpty.string_of_int (Z.to_int z).

(** A string is truthy exactly when it is not empty. *)
Definition truthy (s : string) : bool :=
  match s with EmptyString => false | String _ _ => true end.

(** [x?.[0]] followed by a truthiness test: the first element when it is a
    non-empty string. *)
Definition truthy_opt (o : option string) : bool :=
  match o with Some s => truthy s | None => false end.

(** [a || b] on values that are either [undefined] or a string. *)
Definition or_else (a b : option string) : option string :=
  if truthy_opt a then a else b.

(** [Array.prototype.join]. *)
Definition join (sep : string) (l : list string) : string := String.concat sep l.

(** [String.prototype.split] for a one-character separator. *)
Fixpoint split (sep : ascii) (s : string) : list string :=
  match s with
  | EmptyString => [EmptyString]
  | String c rest =>
      if Ascii.eqb c sep then EmptyString :: split sep rest
      else match split sep rest with
           | [] => [String c EmptyString]
           | hd :: tl => String c hd :: tl
           end
  end.

(** [Array.prototype.findIndex]; [-1] when no element satisfies [p]. *)
Fixpoint findIndex_from {A} (p : A → bool) (l : list A) (i : Z) : Z :=
  match l with
  | [] => -1
  | x :: l' => if p x then i else findIndex_from p l' (i + 1)
  end.
Definition findIndex {A} (p : A → bool) (l : list A) : Z := findIndex_from p l 0.

(** [Array.prototype.slice(start)] for a non-negative [start]. *)
Definition slice_from {A} (start : Z) (l : list A) : list A := drop (Z.to_nat start) l.

(** [String.prototype.lastIndexOf] for a one-character pattern; [-1] when the
    character does not occur. *)
Fixpoint lastIndexOf_from (c : ascii) (s : string) (i : Z) (found : Z) : Z :=
  match s with
  | EmptyString => found
  | String d rest => lastIndexOf_from c rest (i + 1) (if Ascii.eqb d c then i else found)
  end.
Definition lastIndexOf (c : ascii) (s : string) : Z := lastIndexOf_from c s 0 (-1).

(** [String.prototype.substring(start, end)]: both indices are clamped to
    [0 .. length] and swapped when out of order. *)
Definition clamp (len i : Z) : Z := Z.max 0 (Z.min i len).
Definition substring (istart iend : Z) (s : string) : string :=
  let len := Z.of_nat (String.length s) in
  let a := clamp len istart in
  let b := clamp len iend in
  let lo := Z.min a b in
  let hi := Z.max a b in
  String.substring (Z.to_nat lo) (Z.to_nat (hi - lo)) s.

(** Removes the first [n] characters. *)
Fixpoint skip (n : nat) (s : string) : string :=
  match n, s with
  | O, _ => s
  | S _, EmptyString => EmptyString
  | S n', String _ rest => skip n' rest
  end.

(** [String.prototype.replace(pattern, replacement)] with a string pattern:
    only the first occurrence, wherever it is, is replaced. *)
Fixpoint replace (pat rep s : string) : string :=
  if String.prefix pat s then rep +:+ skip (String.length pat) s
  else match s with
       | EmptyString => EmptyString
       | String c rest => String c (replace pat rep rest)
       end.

(** [String.prototype.includes]. *)
Fixpoint includes (pat s : string) : bool :=
  if String.prefix pat s then true
  else match s with
       | EmptyString => false
       | String _ rest => includes pat rest
       end.

(** [arr[arr.length - 1] = x] on a non-empty array. *)
Definition set_last {A} (x : A) (l : list A) : list A :=
  <[ Nat.pred (length l) := x ]> l.

End JS.

(** ** Data model *)

(** Values produced by [JSON.parse].  A number keeps the text of its literal:
    IEEE-754 arithmetic plays no role in the code. *)
Inductive json : Type :=
  | JNull
  | JBool (b : bool)
  | JNumber (literal : string)
  | JString (s : string)
  | JArray (items : list json)
  | JObject (members : list (string * json)).

(** [Array.isArray]. *)
Definition isArray (v : json) : bool :=
  match v with JArray _ => true | _ => false end.

(** [interface UserData]: every property is optional.  [socialLinks] holds
    whatever array [JSON.parse] returned. *)
Record UserData : Type := mkUserData {
  username : option string;
  email : option string;
  avatar : option string;
  bio : option string;
  streamKey : option string;
  socialLinks : option (list json)
}.

(** [const userData: UserData = {}]. *)
Definition emptyUserData : UserData := mkUserData None None None None None None.

Definition count_key {A} (o : option A) : Z :=
  match o with Some _ => 1 | None => 0 end.

(** [Object.keys(userData).length]. *)
Definition keys_length (u : UserData) : Z :=
  count_key (username u) + count_key (email u) + count_key (avatar u)
  + count_key (bio u) + count_key (streamKey u) + count_key (socialLinks u).

(** A column value in a row returned by the database driver. *)
Inductive SqlVal : Type :=
  | VNull
  | VBool (b : bool)
  | VText (s : string).

#[global] Instance SqlVal_eq_dec : EqDecision SqlVal.
Proof. solve_decision. Defined.

Abbreviation Row := (gmap string SqlVal).

(** Truthiness of a possibly missing column value, as tested by
    [if (!userExists)]. *)
Definition sql_truthy (o : option SqlVal) : bool :=
  match o with
  | Some (VBool b) => b
  | Some (VText s) => JS.truthy s
  | Some VNull | None => false
  end.

(** A file part as decoded by formidable: where the transient copy was
    written and the bytes written there. *)
Record File : Type := mkFile { filepath : string; data : string }.

(** [files.avatar] is either one file or an array of files. *)
Inductive FileEntry : Type :=
  | OneFile (f : File)
  | ManyFiles (fs : list File).

Abbreviation Fields := (gmap string (list string)).
Abbreviation Files := (gmap string FileEntry).

(** The parts of [NextApiRequest] the handler reads.  [body] is what decoding
    the multipart payload yields: an error, or the fields and file parts. *)
Record Request : Type := mkRequest {
  method : string;
  query_wallet : option string;
  authorization : option string;
  body : string + (Fields * Files)
}.

(** [res.status(code).json(payload)]. *)
Inductive Payload : Type :=
  | ErrorBody (error : string)
  | UserBody (message : string) (user : option Row).

Record Response : Type := mkResponse { status : Z; payload : Payload }.

(** ** Effects *)

(** The message of a thrown [Error]. *)
Abbreviation Error := string (only parsing).

(** Everything the code can observe or change outside its own variables. *)
Record World : Type := mkWorld {
  disk : gmap string string;             (* local files: path to contents *)
  console : list (string * string);      (* console.error(label, error) *)
  queries : list (string * list string); (* pool.query(text, values), oldest first *)
  uploads : list (string * string);      (* upload_stream(folder, buffer) *)
  destroyed : list string                (* uploader.destroy(publicId) *)
}.

(** Answers of the platform and of the remote collaborators. *)
Record Env : Type := mkEnv {
  JSON_parse : string → option json;          (* None: SyntaxError *)
  JSON_stringify : list json → string;
  URL_pathname : string → option string;      (* None: new URL throws *)
  pool_answer : string → list string → Error + list Row;
  upload_answer : string → Error + string;    (* the result's secure_url *)
  destroy_answer : string → Error + unit
}.

(** Computations that may throw and that change the world. *)
Definition M (A : Type) : Type := World → (Error + A) * World.

Definition ret {A} (a : A) : M A := λ w, (inr a, w).
Definition throw {A} (e : Error) : M A := λ w, (inl e, w).
Definition bind {A B} (m : M A) (k : A → M B) : M B :=
  λ w, match m w with
       | (inl e, w') => (inl e, w')
       | (inr a, w') => k a w'
       end.
Definition try_catch {A} (m : M A) (handle : Error → M A) : M A :=
  λ w, match m w with
       | (inl e, w') => handle e w'
       | (inr a, w') => (inr a, w')
       end.

Notation "'let*' x ':=' m 'in' k" := (bind m (λ x, k))
  (at level 10, x name, m at level 100, k at level 200).
Notation "'let*' ( x , y ) ':=' m 'in' k" := (bind m (λ '(x, y), k))
  (at level 10, x name, y name, m at level 100, k at level 200).

(** The changes a call leaves in the world. *)
Definition log_console (label : string) (e : Error) (w : World) : World :=
  mkWorld (disk w) (console w ++ [(label, e)]) (queries w) (uploads w) (destroyed w).
Definition log_query (text : string) (vals : list string) (w : World) : World :=
  mkWorld (disk w) (console w) (queries w ++ [(text, vals)]) (uploads w) (destroyed w).
Definition log_upload (folder buffer : string) (w : World) : World :=
  mkWorld (disk w) (console w) (queries w) (uploads w ++ [(folder, buffer)]) (destroyed w).
Definition log_destroy (publicId : string) (w : World) : World :=
  mkWorld (disk w) (console w) (queries w) (uploads w) (destroyed w ++ [publicId]).
Definition set_disk (d : gmap string string) (w : World) : World :=
  mkWorld d (console w) (queries w) (uploads w) (destroyed w).

Definition console_error (label : string) (e : Error) : M unit :=
  λ w, (inr tt, log_console label e w).

(** [fs.readFileSync(path)]. *)
Definition readFileSync (path : string) : M string :=
  λ w, match disk w !! path with
       | Some buf => (inr buf, w)
       | None => (inl "ENOENT: no such file or directory", w)
       end.

(** [fs.unlinkSync(path)]. *)
Definition unlinkSync (path : string) : M unit :=
  λ w, match disk w !! path with
       | Some _ => (inr tt, set_disk (delete path (disk w)) w)
       | None => (inl "ENOENT: no such file or directory", w)
       end.

(** Writing one decoded file part to its transient location. *)
Definition write_file (f : File) (d : gmap string string) : gmap string string :=
  <[ filepath f := data f ]> d.

Definition write_entry (e : FileEntry) (d : gmap string string) : gmap string string :=
  match e with
  | OneFile f => write_file f d
  | ManyFiles fs => foldr write_file d fs
  end.

(** The files of one entry. *)
Definition entry_files (entry : FileEntry) : list File :=
  match entry with
  | OneFile f => [f]
  | ManyFiles fs => fs
  end.

(** The disk once every file part of [files] has been written. *)
Definition decoded (files : Files) (w : World) : World :=
  set_disk (map_fold (λ _ entry d, write_entry entry d) (disk w) files) w.

Section WithEnv.

Context (env : Env).

(** [pool.query(text, values)]. *)
Definition pool_query (text : string) (vals : list string) : M (list Row) :=
  λ w, (pool_answer env text vals, log_query text vals w).

(** [cloudinary.uploader.upload_stream(options, callback).end(buffer)],
    resolved with the result's [secure_url] or rejected. *)
Definition upload_stream (folder buffer : string) : M string :=
  λ w, (upload_answer env buffer, log_upload folder buffer w).

(** [cloudinary.uploader.destroy(publicId)]. *)
Definition uploader_destroy (publicId : string) : M unit :=
  λ w, (destroy_answer env publicId, log_destroy publicId w).

(** ** Dcloudinary.ts *)

(** [uploadImage]: the [try] covers reading the file only; the promise it
    returns is not awaited inside it, so a rejected upload reaches the caller
    unchanged. *)
Definition uploadImage (filePath : string) : M string :=
  let* fileBuffer :=
    try_catch (readFileSync filePath)
      (λ error, let* _u := console_error "Error uploading to Cloudinary:" error in
                throw "Failed to upload image to Cloudinary") in
  upload_stream "user_avatars" fileBuffer.

(** The body of the [try] of [extractPublicIdFromUrl] once [new URL(url)]
    has produced [pathname]. *)
Definition publicId_of_pathname (pathname : string) : option string :=
  let pathParts := JS.split "/" pathname in
  let uploadIndex := JS.findIndex (String.eqb "upload") pathParts in
  if Z.eqb uploadIndex (-1) || Z.geb (uploadIndex + 2) (Z.of_nat (length pathParts)) then None
  else
    let publicIdParts := JS.slice_from (uploadIndex + 2) pathParts in
    let lastPart := default "" (last publicIdParts) in
    let lastPartWithoutExtension := JS.substring 0 (JS.lastIndexOf "." lastPart) lastPart in
    let publicIdParts := JS.set_last lastPartWithoutExtension publicIdParts in
    Some (JS.join "/" publicIdParts).

(** [extractPublicIdFromUrl]. *)
Definition extractPublicIdFromUrl (url : string) : M (option string) :=
  match URL_pathname env url with
  | Some pathname => ret (publicId_of_pathname pathname)
  | None =>
      let* _u := console_error "Error extracting public ID:" "Invalid URL" in
      ret None
  end.

(** [deleteImage]: the error thrown for a missing public id is thrown inside
    the [try], so the [catch] of the same function receives it. *)
Definition deleteImage (imageUrl : string) : M unit :=
  try_catch
    (let* publicId := extractPublicIdFromUrl imageUrl in
     if negb (JS.truthy_opt publicId) then throw "Invalid Cloudinary URL"
     else uploader_destroy (default "" publicId))
    (λ error, let* _u := console_error "Error deleting from Cloudinary:" error in
              throw "Failed to delete image from Cloudinary").

(** ** The profile update route *)

(** [parseFormData]: formidable decodes the payload and writes every file
    part to its transient location; a decoding error rejects the promise. *)
Definition parseFormData (req : Request) : M (Fields * Files) :=
  match body req with
  | inl err => throw err
  | inr (fields, files) =>
      λ w, (inr (fields, files), decoded files w)
  end.

Definition select_exists : string := "SELECT EXISTS(SELECT 1 FROM users WHERE wallet = $1)".

(** [checkUserExists]: [result.rows[0].exists]. *)
Definition checkUserExists (wallet : string) : M (option SqlVal) :=
  let* result := pool_query select_exists [wallet] in
  match result with
  | row :: _ => ret (row !! "exists")
  | [] => throw "TypeError: Cannot read properties of undefined (reading 'exists')"
  end.

(** The three mutable locals of [updateUser]. *)
Record SqlParts : Type := mkSqlParts {
  setClauses : list string;
  values : list string;
  paramIndex : Z
}.

(** One [if (userData.f !== undefined) { setClauses.push(`col = $${paramIndex++}`);
    values.push(...) }] block. *)
Definition push_param (column : string) (value : option string) (p : SqlParts) : SqlParts :=
  match value with
  | Some v =>
      mkSqlParts (setClauses p ++ [column +:+ " = $" +:+ JS.Z_to_string (paramIndex p)])
                 (values p ++ [v])
                 (paramIndex p + 1)
  | None => p
  end.

(** The locals of [updateUser] when the query text is assembled. *)
Definition sqlParts (wallet : string) (userData : UserData) : SqlParts :=
  let p := mkSqlParts [] [wallet] 2 in
  let p := push_param "username" (username userData) p in
  let p := push_param "email" (email userData) p in
  let p := push_param "avatar" (avatar userData) p in
  let p := push_param "bio" (bio userData) p in
  let p := push_param "streamkey" (streamKey userData) p in
  let p := push_param "socialLinks" (JSON_stringify env <$> socialLinks userData) p in
  mkSqlParts (setClauses p ++ ["updated_at = CURRENT_TIMESTAMP"]) (values p) (paramIndex p).

Definition newline : string := String "010" EmptyString.
Definition dquote : string := String (ascii_of_nat 34) EmptyString.

(** The template literal bound to [query]. *)
Definition query (clauses : list string) : string :=
  newline +:+ "    UPDATE users " +:+ newline
  +:+ "    SET " +:+ JS.join ", " clauses +:+ newline
  +:+ "    WHERE wallet = $1" +:+ newline
  +:+ "    RETURNING id, wallet, username, email, avatar, bio, streamkey as "
  +:+ dquote +:+ "streamKey" +:+ dquote +:+ ", socialLinks, updated_at" +:+ newline
  +:+ "  ".

(** [updateUser]: [result.rows[0]]. *)
Definition updateUser (wallet : string) (userData : UserData) : M (option Row) :=
  let p := sqlParts wallet userData in
  let* result := pool_query (query (setClauses p)) (values p) in
  ret (head result).

(** [fields.name?.[0]]. *)
Definition first_value (fields : Fields) (name : string) : option string :=
  fields !! name ≫= head.

Definition set_username (v : option string) (u : UserData) : UserData :=
  mkUserData v (email u) (avatar u) (bio u) (streamKey u) (socialLinks u).
Definition set_email (v : option string) (u : UserData) : UserData :=
  mkUserData (username u) v (avatar u) (bio u) (streamKey u) (socialLinks u).
Definition set_avatar (v : option string) (u : UserData) : UserData :=
  mkUserData (username u) (email u) v (bio u) (streamKey u) (socialLinks u).
Definition set_bio (v : option string) (u : UserData) : UserData :=
  mkUserData (username u) (email u) (avatar u) v (streamKey u) (socialLinks u).
Definition set_streamKey (v : option string) (u : UserData) : UserData :=
  mkUserData (username u) (email u) (avatar u) (bio u) v (socialLinks u).
Definition set_socialLinks (v : option (list json)) (u : UserData) : UserData :=
  mkUserData (username u) (email u) (avatar u) (bio u) (streamKey u) v.

(** [if (fields.f?.[0]) userData.f = fields.f[0]]. *)
Definition copy_text (fields : Fields) (name : string)
    (set : option string → UserData → UserData) (u : UserData) : UserData :=
  if JS.truthy_opt (first_value fields name) then set (first_value fields name) u else u.

(** Lines 45-47: [req.query.wallet || req.headers.authorization?.replace('Bearer ', '')
    || fields.wallet?.[0]]. *)
Definition resolve_wallet (req : Request) (fields : Fields) : option string :=
  JS.or_else
    (JS.or_else (query_wallet req) (JS.replace "Bearer " "" <$> authorization req))
    (first_value fields "wallet").

(** Lines 60-66: the text fields. *)
Definition text_fields (fields : Fields) : UserData :=
  let userData := emptyUserData in
  let userData := copy_text fields "username" set_username userData in
  let userData := copy_text fields "email" set_email userData in
  let userData := copy_text fields "bio" set_bio userData in
  let userData := copy_text fields "streamKey" set_streamKey userData in
  userData.

(** Lines 69-78: the social links.  [inl] is the response of an early
    [return]; [inr] carries [userData] on. *)
Definition social_links (fields : Fields) (userData : UserData) : Response + UserData :=
  if JS.truthy_opt (first_value fields "socialLinks") then
    match JSON_parse env (default "" (first_value fields "socialLinks")) with
    | Some socialLinksData =>
        match socialLinksData with
        | JArray items => inr (set_socialLinks (Some items) userData)
        | _ => inr userData
        end
    | None => inl (mkResponse 400 (ErrorBody "Invalid social links format"))
    end
  else inr userData.

(** [Array.isArray(entry) ? entry[0] : entry]. *)
Definition first_file (entry : FileEntry) : option File :=
  match entry with
  | ManyFiles fs => head fs
  | OneFile f => Some f
  end.

(** Lines 81-98: the avatar upload. *)
Definition avatar_upload (files : Files) (userData : UserData) : M (Response + UserData) :=
  match files !! "avatar" with
  | Some entry =>
      let avatarFile := first_file entry in
      match avatarFile with
      | Some avatarFile =>
          let filePath := filepath avatarFile in
          try_catch
            (let* secure_url := uploadImage filePath in
             let userData := set_avatar (Some secure_url) userData in
             let* _u := unlinkSync filePath in
             ret (inr userData))
            (λ error,
               let* _u := console_error "Upload error:" error in
               ret (inl (mkResponse 500 (ErrorBody "Failed to upload avatar"))))
      | None => throw "TypeError: Cannot read properties of undefined (reading 'filepath')"
      end
  | None => ret (inr userData)
  end.

(** Lines 100-112: the emptiness check, the update and the response. *)
Definition persist (wallet : string) (userData : UserData) : M Response :=
  if Z.eqb (keys_length userData) 0 then
    ret (mkResponse 400 (ErrorBody "No update data provided"))
  else
    let* updatedUser := updateUser wallet userData in
    ret (mkResponse 200 (UserBody "User updated successfully" updatedUser)).

(** Lines 59-112: everything after the existence check. *)
Definition build_and_persist (wallet : string) (fields : Fields) (files : Files) : M Response :=
  match social_links fields (text_fields fields) with
  | inl response => ret response
  | inr userData =>
      let* step := avatar_upload files userData in
      match step with
      | inl response => ret response
      | inr userData => persist wallet userData
      end
  end.

(** Lines 114-117: the outer [catch]. *)
Definition on_failure (error : Error) : M Response :=
  let* _u := console_error "Update error:" error in
  ret (mkResponse 500 (ErrorBody "Failed to update user")).

(** [handler]. *)
Definition handler (req : Request) : M Response :=
  if negb (String.eqb (method req) "PUT") && negb (String.eqb (method req) "PATCH") then
    ret (mkResponse 405 (ErrorBody "Method not allowed"))
  else
    try_catch
      (let* (fields, files) := parseFormData req in
       let wallet := resolve_wallet req fields in
       if negb (JS.truthy_opt wallet) then
         ret (mkResponse 400 (ErrorBody "Wallet address is required"))
       else
         let wallet := default "" wallet in
         let* userExists := checkUserExists wallet in
         if negb (sql_truthy userExists) then
           ret (mkResponse 404 (ErrorBody "User not found"))
         else build_and_persist wallet fields files)
      on_failure.

End WithEnv.

(** ** A concrete platform, for running the code on examples

    A reader of JSON text following the JSON grammar, a writer, and a reader
    of the path of plain [scheme://host/path?query#fragment] addresses (no
    percent-encoding, no dot segments).  String bodies are kept as written,
    escapes included. *)

Module Sample.

Definition dq : ascii := ascii_of_nat 34.

Definition is_ws (c : ascii) : bool :=
  Ascii.eqb c " " || Ascii.eqb c "009" || Ascii.eqb c "010" || Ascii.eqb c "013".

Fixpoint skip_ws (s : string) : string :=
  match s with
  | String c rest => if is_ws c then skip_ws rest else s
  | EmptyString => s
  end.

Definition is_digit (c : ascii) : bool :=
  let n := nat_of_ascii c in Nat.leb 48 n && Nat.leb n 57.

Definition is_hex (c : ascii) : bool :=
  let n := nat_of_ascii c in
  is_digit c || (Nat.leb 65 n && Nat.leb n 70) || (Nat.leb 97 n && Nat.leb n 102).

Fixpoint take_digits (s : string) : string * string :=
  match s with
  | String c rest =>
      if is_digit c then let '(d, r) := take_digits rest in (String c d, r)
      else (EmptyString, s)
  | EmptyString => (EmptyString, s)
  end.

Definition keyword (word : string) (v : json) (s : string) : option (json * string) :=
  if String.prefix word s then Some (v, JS.skip (String.length word) s) else None.

Definition number_part (mark : ascii → bool) (sign : ascii → bool) (s : string)
  : option (string * string) :=
  match s with
  | String c rest =>
      if mark c then
        let '(sg, rest) :=
          match rest with
          | String x rest' => if sign x then (String x EmptyString, rest') else (EmptyString, rest)
          | EmptyString => (EmptyString, rest)
          end in
        let '(d, r) := take_digits rest in
        if JS.truthy d then Some (String c (sg +:+ d), r) else None
      else Some (EmptyString, s)
  | EmptyString => Some (EmptyString, s)
  end.

Definition parse_number (s : string) : option (string * string) :=
  let '(minus, s) :=
    match s with
    | String "-" rest => ("-", rest)
    | _ => (EmptyString, s)
    end in
  let '(int, s) := take_digits s in
  if negb (JS.truthy int) then None
  else if String.prefix "0" int && Nat.ltb 1 (String.length int) then None
  else
    '(frac, s) ← number_part (Ascii.eqb ".") (λ _, false) s;
    '(exp, s) ← number_part (λ c, Ascii.eqb c "e" || Ascii.eqb c "E")
                            (λ c, Ascii.eqb c "+" || Ascii.eqb c "-") s;
    Some (minus +:+ int +:+ frac +:+ exp, s).

Definition simple_escape (c : ascii) : bool :=
  Ascii.eqb c dq || Ascii.eqb c "\" || Ascii.eqb c "/" || Ascii.eqb c "b"
  || Ascii.eqb c "f" || Ascii.eqb c "n" || Ascii.eqb c "r" || Ascii.eqb c "t".

(** The characters after an opening quote, up to the closing one. *)
Fixpoint parse_string (s : string) : option (string * string) :=
  match s with
  | EmptyString => None
  | String c rest =>
      if Ascii.eqb c dq then Some (EmptyString, rest)
      else if Ascii.eqb c "\" then
        match rest with
        | String e rest' =>
            if simple_escape e then
              '(b, r) ← parse_string rest'; Some (String c (String e b), r)
            else if Ascii.eqb e "u" then
              match rest' with
              | String h1 (String h2 (String h3 (String h4 rest''))) =>
                  if is_hex h1 && is_hex h2 && is_hex h3 && is_hex h4 then
                    '(b, r) ← parse_string rest'';
                    Some (String c (String e (String h1 (String h2 (String h3 (String h4 b))))), r)
                  else None
              | _ => None
              end
            else None
        | EmptyString => None
        end
      else if Nat.ltb (nat_of_ascii c) 32 then None
      else '(b, r) ← parse_string rest; Some (String c b, r)
  end.

Fixpoint parse_value (fuel : nat) (s : string) : option (json * string) :=
  match fuel with
  | O => None
  | S fuel =>
      match skip_ws s with
      | String "n" _ => keyword "null" JNull (skip_ws s)
      | String "t" _ => keyword "true" (JBool true) (skip_ws s)
      | String "f" _ => keyword "false" (JBool false) (skip_ws s)
      | String "[" rest =>
          match skip_ws rest with
          | String "]" rest' => Some (JArray [], rest')
          | _ => '(items, r) ← parse_elements fuel rest []; Some (JArray items, r)
          end
      | String "{" rest =>
          match skip_ws rest with
          | String "}" rest' => Some (JObject [], rest')
          | _ => '(members, r) ← parse_members fuel rest []; Some (JObject members, r)
          end
      | String c rest =>
          if Ascii.eqb c dq then '(b, r) ← parse_string rest; Some (JString b, r)
          else '(n, r) ← parse_number (String c rest); Some (JNumber n, r)
      | EmptyString => None
      end
  end
with parse_elements (fuel : nat) (s : string) (acc : list json) : option (list json * string) :=
  match fuel with
  | O => None
  | S fuel =>
      '(v, r) ← parse_value fuel s;
      match skip_ws r with
      | String "," r' => parse_elements fuel r' (v :: acc)
      | String "]" r' => Some (rev (v :: acc), r')
      | _ => None
      end
  end
with parse_members (fuel : nat) (s : string) (acc : list (string * json))
  : option (list (string * json) * string) :=
  match fuel with
  | O => None
  | S fuel =>
      match skip_ws s with
      | String c rest =>
          if Ascii.eqb c dq then
            '(k, r) ← parse_string rest;
            match skip_ws r with
            | String ":" r' =>
                '(v, r'') ← parse_value fuel r';
                match skip_ws r'' with
                | String "," r3 => parse_members fuel r3 ((k, v) :: acc)
                | String "}" r3 => Some (rev ((k, v) :: acc), r3)
                | _ => None
                end
            | _ => None
            end
          else None
      | EmptyString => None
      end
  end.

(** [JSON.parse]: one value, then nothing but white space. *)
Definition parse (text : string) : option json :=
  '(v, r) ← parse_value (2 * String.length text + 2) text;
  if JS.truthy (skip_ws r) then None else Some v.

(** [JSON.stringify] on parsed values. *)
Fixpoint stringify (v : json) : string :=
  match v with
  | JNull => "null"
  | JBool true => "true"
  | JBool false => "false"
  | JNumber n => n
  | JString b => String dq (b +:+ String dq EmptyString)
  | JArray items => "[" +:+ JS.join "," (map stringify items) +:+ "]"
  | JObject members =>
      "{" +:+ JS.join ","
                (map (λ m, String dq (fst m +:+ String dq (":" +:+ stringify (snd m)))) members)
      +:+ "}"
  end.

Fixpoint after_scheme (s : string) : option string :=
  if String.prefix "://" s then Some (JS.skip 3 s)
  else match s with
       | String _ rest => after_scheme rest
       | EmptyString => None
       end.

Fixpoint until (stop : ascii → bool) (s : string) : string * string :=
  match s with
  | String c rest =>
      if stop c then (EmptyString, s)
      else let '(a, b) := until stop rest in (String c a, b)
  | EmptyString => (EmptyString, s)
  end.

(** [new URL(url).pathname] on plain addresses. *)
Definition pathname (url : string) : option string :=
  rest ← after_scheme url;
  let '(_, from_path) := until (λ c, Ascii.eqb c "/" || Ascii.eqb c "?" || Ascii.eqb c "#") rest in
  let '(path, _) := until (λ c, Ascii.eqb c "?" || Ascii.eqb c "#") from_path in
  Some (if JS.truthy path then path else "/").

(** A backend that knows the wallets of [known]: the existence query answers
    one row, and any other statement answers the row of the wallet bound to
    its first parameter. *)
Definition backend (known : list string) (text : string) (vals : list string)
  : Error + list Row :=
  let wallet := default "" (head vals) in
  if String.eqb text select_exists then
    inr [ {[ "exists" := VBool (bool_decide (wallet ∈ known)) ]} ]
  else if bool_decide (wallet ∈ known) then inr [ {[ "wallet" := VText wallet ]} ]
  else inr [].

Definition env (known : list string) (cloud : string → Error + string) : Env :=
  mkEnv parse (λ items, stringify (JArray items)) pathname (backend known) cloud (λ _, inr tt).

(** A remote store that accepts every upload. *)
Definition cloud_ok (buffer : string) : Error + string :=
  inr "https://res.cloudinary.com/demo/image/upload/v1700000000/user_avatars/k3x9.png".

(** A remote store that rejects every upload. *)
Definition cloud_down (buffer : string) : Error + string := inl "read ECONNRESET".

Definition world0 : World := mkWorld ∅ [] [] [] [].

(** The platform with a backend that knows the wallets used below and a
    remote store that accepts uploads. *)
Definition env0 : Env := env ["0xq"; "0xabc"; "Token abc"] cloud_ok.

(** Update mappings. *)
Definition nova_only : UserData := mkUserData (Some "nova") None None None None None.
Definition nova_bio : UserData := mkUserData (Some "nova") None None (Some "hi") None None.
Definition hostile : UserData :=
  mkUserData (Some "x', wallet = 'mine") None None (Some "$1; DROP TABLE users") None None.

(** Requests. *)
Definition three_sources_request : Request :=
  mkRequest "PUT" (Some "0xq") (Some "Bearer 0xh")
    (inr ({[ "wallet" := ["0xf"]; "username" := ["nova"] ]}, ∅)).
Definition embedded_bearer_request : Request :=
  mkRequest "PUT" None (Some "Token Bearer abc") (inr (∅, ∅)).
Definition anonymous_request : Request :=
  mkRequest "PATCH" None (Some "Bearer ") (inr ({[ "username" := ["nova"] ]}, ∅)).
Definition object_links_request : Request :=
  mkRequest "PUT" (Some "0xabc") None
    (inr ({[ "username" := ["nova"]; "socialLinks" := ["{}"] ]}, ∅)).
Definition broken_links_request : Request :=
  mkRequest "PUT" (Some "0xabc") None
    (inr ({[ "username" := ["nova"]; "socialLinks" := ["[{oops"] ]}, ∅)).
Definition empty_request : Request :=
  mkRequest "PUT" (Some "0xabc") None (inr (∅, ∅)).
Definition blank_request : Request :=
  mkRequest "PATCH" (Some "0xabc") None
    (inr ({[ "username" := [""]; "bio" := [""] ]}, ∅)).
Definition nova_bio_request : Request :=
  mkRequest "PUT" (Some "0xabc") None
    (inr ({[ "username" := ["nova"]; "bio" := ["hi"] ]}, ∅)).
Definition get_request : Request := mkRequest "GET" (Some "0xabc") None (inr (∅, ∅)).
Definition stranger_request : Request :=
  mkRequest "PUT" (Some "0x000") None (inr ({[ "username" := ["nova"] ]}, ∅)).
Definition avatar_file : File := mkFile "/tmp/9f2c1a7e.png" "PNG-bytes".
Definition avatar_request : Request :=
  mkRequest "PATCH" (Some "0xabc") None (inr (∅, {[ "avatar" := ManyFiles [avatar_file] ]})).

(** Addresses. *)
Definition asset_url : string :=
  "https://res.cloudinary.com/demo/image/upload/v1700000000/user_avatars/k3x9.png".
Definition marker_cloud_url : string :=
  "https://res.cloudinary.com/upload/image/upload/v1/user_avatars/abc.jpg".
Definition foreign_url : string := "https://example.com/pictures/cat.png".
Definition bare_url : string :=
  "https://res.cloudinary.com/demo/image/upload/v1700000000/k3x9".
Definition nested_bare_url : string :=
  "https://res.cloudinary.com/demo/image/upload/v1700000000/user_avatars/k3x9".

End Sample.

(** ** How the backend reads the SET list

    The statement is executed by PostgreSQL, outside the repository.  What a
    clause [column = $n] or [column = CURRENT_TIMESTAMP] does to a row is
    read off the clause text itself. *)

(** The text before and after the first occurrence of [pat]. *)
Fixpoint split_once (pat s : string) : option (string * string) :=
  if String.prefix pat s then Some (EmptyString, JS.skip (String.length pat) s)
  else match s with
       | EmptyString => None
       | String c rest => '(a, b) ← split_once pat rest; Some (String c a, b)
       end.

(** The column a SET clause assigns. *)
Definition clause_column (clause : string) : string :=
  match split_once " = " clause with
  | Some (column, _) => column
  | None => clause
  end.

(** The slot [n] of a right-hand side [$n]. *)
Definition param_number (rhs : string) : option Z :=
  match rhs with
  | String "$" digits => Z.of_int <$> NilEmpty.int_of_string digits
  | _ => None
  end.

(** The value a right-hand side denotes: slot [n] is the [n]-th bound value. *)
Definition bound_value (vals : list string) (now : string) (rhs : string) : option SqlVal :=
  match param_number rhs with
  | Some n => if Z.ltb n 1 then None else VText <$> vals !! Z.to_nat (n - 1)
  | None => if String.eqb rhs "CURRENT_TIMESTAMP" then Some (VText now) else None
  end.

(** The slot a SET clause reads, if any. *)
Definition clause_slot (clause : string) : option Z :=
  '(_, rhs) ← split_once " = " clause; param_number rhs.

Definition apply_clause (vals : list string) (now : string) (row : Row) (clause : string) : Row :=
  match split_once " = " clause with
  | Some (column, rhs) =>
      match bound_value vals now rhs with
      | Some v => <[ column := v ]> row
      | None => row
      end
  | None => row
  end.

(** [UPDATE users SET clauses WHERE wallet = $1] on a table. *)
Definition run_update (clauses vals : list string) (now : string) (table : list Row) : list Row :=
  map (λ row, if bool_decide (row !! "wallet" = VText <$> head vals)
              then foldl (apply_clause vals now) row clauses
              else row) table.

(** ** Definitions that follow the specification's words *)

(** The supplied fields in the canonical order, each with its column and
    the value to bind; social links are serialized. *)
Definition supplied_item (column : string) (v : option string) : list (string * string) :=
  match v with Some x => [(column, x)] | None => [] end.

Definition supplied (env : Env) (u : UserData) : list (string * string) :=
  supplied_item "username" (username u) ++ supplied_item "email" (email u)
  ++ supplied_item "avatar" (avatar u) ++ supplied_item "bio" (bio u)
  ++ supplied_item "streamkey" (streamKey u)
  ++ supplied_item "socialLinks" (JSON_stringify env <$> socialLinks u).

(** The assignment of the [i]-th supplied field: slot 1 is the wallet, so
    the first fresh slot is 2. *)
Definition assignment (i : nat) (item : string * string) : string :=
  item.1 +:+ " = $" +:+ JS.Z_to_string (Z.of_nat i + 2).

(** [f !== undefined]. *)
Definition defined {A} (o : option A) : bool :=
  match o with Some _ => true | None => false end.

(** Which fields a mapping supplies. *)
Definition supplies (u : UserData) : list bool :=
  [defined (username u); defined (email u); defined (avatar u);
   defined (bio u); defined (streamKey u); defined (socialLinks u)].

(** The column of each updatable field, with whether the mapping supplies it. *)
Definition field_columns (u : UserData) : list (string * bool) :=
  zip ["username"; "email"; "avatar"; "bio"; "streamkey"; "socialLinks"] (supplies u).

(** Removing a leading ["Bearer "] and nothing else. *)
Definition strip_leading_bearer (h : string) : string :=
  if String.prefix "Bearer " h then JS.skip 7 h else h.

Definition non_empty (o : option string) : option string :=
  if JS.truthy_opt o then o else None.

(** Strict priority: the query parameter, then the stripped header, then the
    form field; each only when it is not empty. *)
Definition identity_by_priority (strip : string → string)
    (query_param header form_field : option string) : option string :=
  match non_empty query_param with
  | Some id => Some id
  | None =>
      match non_empty (strip <$> header) with
      | Some id => Some id
      | None => non_empty form_field
      end
  end.

(** Whether the character [c] occurs in [s]. *)
Fixpoint has_char (c : ascii) (s : string) : bool :=
  match s with
  | EmptyString => false
  | String d rest => Ascii.eqb d c || has_char c rest
  end.

(** The path of the address the store returns for an asset: the segments
    before the marker, the marker [upload], the version, the identifier's
    folders and the file name. *)
Definition asset_path (pre : list string) (version : string) (folders : list string)
    (name ext : string) : string :=
  JS.join "/" (EmptyString :: pre ++ "upload" :: version :: folders ++ [name +:+ "." +:+ ext]).

(** The identifier of that asset: folders and name, without the extension. *)
Definition asset_id (folders : list string) (name : string) : string :=
  JS.join "/" (folders ++ [name]).

(** The method check of [handler] lets the request through. *)
Definition allowed (req : Request) : Prop :=
  method req = "PUT" ∨ method req = "PATCH".

(** The request without the form field [name]. *)
Definition drop_field (name : string) (req : Request) : Request :=
  mkRequest (method req) (query_wallet req) (authorization req)
    match body req with
    | inr (fields, files) => inr (delete name fields, files)
    | inl e => inl e
    end.

(** The form fields copied as text. *)
Definition text_names : list string := ["username"; "email"; "bio"; "streamKey"].

(** A computation only ever adds to the list of issued queries. *)
Definition grows {A} (m : M A) : Prop :=
  ∀ w, ∃ later, queries (m w).2 = (queries w ++ later)%list.

(** ** The ways out of the handler

    Used to state what every run has in common: one constructor per
    [return] or thrown error of [handler], with the world it leaves. *)

(** The request got past the method, identity and existence checks. *)
Definition checked (env : Env) (req : Request) (fields : Fields) (files : Files)
    (id : string) : Prop :=
  allowed req ∧ body req = inr (fields, files)
  ∧ resolve_wallet req fields = Some id ∧ JS.truthy id = true
  ∧ ∃ row rows, pool_answer env select_exists [id] = inr (row :: rows)
                ∧ sql_truthy (row !! "exists") = true.

(** The world once the body is decoded and the existence query answered. *)
Definition after_checks (files : Files) (id : string) (w : World) : World :=
  log_query select_exists [id] (decoded files w).

(** The avatar step went through, from mapping [u] in world [w1]. *)
Inductive avatar_done (env : Env) (files : Files) (u : UserData) (w1 : World)
  : UserData → World → Prop :=
  | avatar_absent :
      files !! "avatar" = None → avatar_done env files u w1 u w1
  | avatar_stored entry f buf url :
      files !! "avatar" = Some entry → first_file entry = Some f →
      disk w1 !! filepath f = Some buf → upload_answer env buf = inr url →
      avatar_done env files u w1 (set_avatar (Some url) u)
        (set_disk (delete (filepath f) (disk w1)) (log_upload "user_avatars" buf w1)).

Definition failed_update : Response := mkResponse 500 (ErrorBody "Failed to update user").

Inductive Exit (env : Env) (req : Request) (w : World) : Response → World → Prop :=
  | exit_method :
      ¬ allowed req →
      Exit env req w (mkResponse 405 (ErrorBody "Method not allowed")) w
  | exit_body e :
      allowed req → body req = inl e →
      Exit env req w failed_update (log_console "Update error:" e w)
  | exit_identity fields files :
      allowed req → body req = inr (fields, files) →
      JS.truthy_opt (resolve_wallet req fields) = false →
      Exit env req w (mkResponse 400 (ErrorBody "Wallet address is required"))
        (decoded files w)
  | exit_backend fields files id e :
      allowed req → body req = inr (fields, files) →
      resolve_wallet req fields = Some id → JS.truthy id = true →
      pool_answer env select_exists [id] = inl e →
      Exit env req w failed_update (log_console "Update error:" e (after_checks files id w))
  | exit_no_row fields files id :
      allowed req → body req = inr (fields, files) →
      resolve_wallet req fields = Some id → JS.truthy id = true →
      pool_answer env select_exists [id] = inr [] →
      Exit env req w failed_update
        (log_console "Update error:"
           "TypeError: Cannot read properties of undefined (reading 'exists')"
           (after_checks files id w))
  | exit_unknown fields files id row rows :
      allowed req → body req = inr (fields, files) →
      resolve_wallet req fields = Some id → JS.truthy id = true →
      pool_answer env select_exists [id] = inr (row :: rows) →
      sql_truthy (row !! "exists") = false →
      Exit env req w (mkResponse 404 (ErrorBody "User not found")) (after_checks files id w)
  | exit_links fields files id :
      checked env req fields files id →
      social_links env fields (text_fields fields)
      = inl (mkResponse 400 (ErrorBody "Invalid social links format")) →
      Exit env req w (mkResponse 400 (ErrorBody "Invalid social links format"))
        (after_checks files id w)
  | exit_no_file fields files id u entry :
      checked env req fields files id →
      social_links env fields (text_fields fields) = inr u →
      files !! "avatar" = Some entry → first_file entry = None →
      Exit env req w failed_update
        (log_console "Update error:"
           "TypeError: Cannot read properties of undefined (reading 'filepath')"
           (after_checks files id w))
  | exit_upload fields files id u entry f buf e :
      checked env req fields files id →
      social_links env fields (text_fields fields) = inr u →
      files !! "avatar" = Some entry → first_file entry = Some f →
      disk (after_checks files id w) !! filepath f = Some buf →
      upload_answer env buf = inl e →
      Exit env req w (mkResponse 500 (ErrorBody "Failed to upload avatar"))
        (log_console "Upload error:" e (log_upload "user_avatars" buf (after_checks files id w)))
  | exit_empty fields files id u u' w2 :
      checked env req fields files id →
      social_links env fields (text_fields fields) = inr u →
      avatar_done env files u (after_checks files id w) u' w2 →
      keys_length u' = 0 →
      Exit env req w (mkResponse 400 (ErrorBody "No update data provided")) w2
  | exit_update_failed fields files id u u' w2 e :
      checked env req fields files id →
      social_links env fields (text_fields fields) = inr u →
      avatar_done env files u (after_checks files id w) u' w2 →
      keys_length u' ≠ 0 →
      pool_answer env (query (setClauses (sqlParts env id u'))) (values (sqlParts env id u'))
      = inl e →
      Exit env req w failed_update
        (log_console "Update error:" e
           (log_query (query (setClauses (sqlParts env id u'))) (values (sqlParts env id u')) w2))
  | exit_updated fields files id u u' w2 rows :
      checked env req fields files id →
      social_links env fields (text_fields fields) = inr u →
      avatar_done env files u (after_checks files id w) u' w2 →
      keys_length u' ≠ 0 →
      pool_answer env (query (setClauses (sqlParts env id u'))) (values (sqlParts env id u'))
      = inr rows →
      Exit env req w (mkResponse 200 (UserBody "User updated successfully" (head rows)))
        (log_query (query (setClauses (sqlParts env id u'))) (values (sqlParts env id u')) w2).

(** The names of the form fields the handler reads. *)
Definition form_names : list string :=
  ["wallet"; "username"; "email"; "bio"; "streamKey"; "socialLinks"].

(** ** More platforms and requests to run the code on *)

Module Scenario.

(** The sample platform with the backend and the remote delete replaced. *)
Definition env_with (pool : string → list string → Error + list Row)
    (cloud : string → Error + string) (remote_delete : string → Error + unit) : Env :=
  mkEnv Sample.parse (λ items, Sample.stringify (JArray items)) Sample.pathname
    pool cloud remote_delete.

(** A backend that is down. *)
Definition offline (text : string) (vals : list string) : Error + list Row :=
  inl "connect ECONNREFUSED".

(** A backend that answers the existence query with no row at all. *)
Definition rowless (text : string) (vals : list string) : Error + list Row := inr [].

(** A backend that confirms every wallet and rejects every update. *)
Definition read_only (text : string) (vals : list string) : Error + list Row :=
  if String.eqb text select_exists then inr [ {[ "exists" := VBool true ]} ]
  else inl "cannot execute UPDATE in a read-only transaction".

(** A backend that confirms every wallet but finds no row to update. *)
Definition vanishing (text : string) (vals : list string) : Error + list Row :=
  if String.eqb text select_exists then inr [ {[ "exists" := VBool true ]} ]
  else inr [].

Definition env_offline : Env := env_with offline Sample.cloud_ok (λ _, inr tt).
Definition env_rowless : Env := env_with rowless Sample.cloud_ok (λ _, inr tt).
Definition env_read_only : Env := env_with read_only Sample.cloud_ok (λ _, inr tt).
Definition env_vanishing : Env := env_with vanishing Sample.cloud_ok (λ _, inr tt).
Definition env_no_delete : Env :=
  env_with (Sample.backend ["0xabc"]) Sample.cloud_ok (λ _, inl "not found").

Definition garbled_request : Request := mkRequest "PUT" (Some "0xabc") None (inl "bad boundary").

Definition second_file : File := mkFile "/tmp/5be07d11.png" "PNG-second".
Definition banner_file : File := mkFile "/tmp/c41a90e2.jpg" "JPG-banner".

(** Two avatar files and a file under another field name. *)
Definition crowded_request : Request :=
  mkRequest "PATCH" (Some "0xabc") None
    (inr (∅, {[ "avatar" := ManyFiles [Sample.avatar_file; second_file];
                "banner" := OneFile banner_file ]})).

(** The same avatar sent for a wallet the backend does not know. *)
Definition stranger_avatar_request : Request :=
  mkRequest "PATCH" (Some "0x000") None
    (inr (∅, {[ "avatar" := ManyFiles [Sample.avatar_file] ]})).

(** Repeated values and a field the handler does not know. *)
Definition noisy_request : Request :=
  mkRequest "PUT" (Some "0xabc") None
    (inr ({[ "username" := ["nova"; "ignored"]; "role" := ["admin"] ]}, ∅)).
Definition quiet_request : Request :=
  mkRequest "PUT" (Some "0xabc") None (inr ({[ "username" := ["nova"] ]}, ∅)).

(** Blank text fields, first with no identity at all, then for a wallet the
    backend does not know. *)
Definition blank_anonymous_request : Request :=
  mkRequest "PUT" None None (inr ({[ "username" := [EmptyString] ]}, ∅)).
Definition blank_stranger_request : Request :=
  mkRequest "PUT" (Some "0x000") None (inr ({[ "username" := [EmptyString] ]}, ∅)).

(** Social links written with spaces. *)
Definition links_request : Request :=
  mkRequest "PUT" (Some "0xabc") None (inr ({[ "socialLinks" := ["[ 1 , 2 ]"] ]}, ∅)).

Definition disk_with_avatar : World :=
  mkWorld {[ "/tmp/9f2c1a7e.png" := "PNG-bytes" ]} [] [] [] [].

End Scenario.

(** * Properties *)

(** ** The statement built by [updateUser] *)

Section UpdateStatement.

Context (env : Env).

Ltac by_fields u :=
  destruct u as [[?|] [?|] [?|] [?|] [?|] [?|]].

Lemma sqlParts_setClauses wallet u :
  setClauses (sqlParts env wallet u)
  = (imap assignment (supplied env u) ++ ["updated_at = CURRENT_TIMESTAMP"])%list.
Proof. by_fields u; reflexivity. Qed.

Lemma sqlParts_values wallet u :
  values (sqlParts env wallet u) = wallet :: (supplied env u).*2.
Proof. by_fields u; reflexivity. Qed.

Lemma sqlParts_columns wallet u :
  map clause_column (setClauses (sqlParts env wallet u))
  = ((supplied env u).*1 ++ ["updated_at"])%list.
Proof. by_fields u; reflexivity. Qed.

Lemma sqlParts_slots wallet u :
  map clause_slot (setClauses (sqlParts env wallet u))
  = (imap (λ i _, Some (Z.of_nat i + 2)) (supplied env u) ++ [None])%list.
Proof. by_fields u; reflexivity. Qed.

Lemma updateUser_world wallet u w :
  (updateUser env wallet u w).2
  = log_query (query (setClauses (sqlParts env wallet u))) (values (sqlParts env wallet u)) w.
Proof.
  unfold updateUser, bind, pool_query, ret.
  destruct (pool_answer env _ _); reflexivity.
Qed.

Lemma supplied_columns_known u column :
  column ∈ (supplied env u).*1 →
  column ∈ ["username"; "email"; "avatar"; "bio"; "streamkey"; "socialLinks"].
Proof. by_fields u; cbn; intros Hin; set_unfold; naive_solver. Qed.

Lemma unsupplied_not_assigned u column :
  (column, false) ∈ field_columns u → column ∉ (supplied env u).*1.
Proof.
  by_fields u; cbn; intros Hin Hsup; set_unfold; naive_solver.
Qed.

(** C1.  For every update mapping, empty or not, [updateUser] issues exactly
    one statement: [UPDATE users SET <clauses> WHERE wallet = $1 RETURNING
    ...], whose SET clauses, joined by [", "], are one assignment per supplied
    field, in the order username, email, avatar, bio, streamKey, socialLinks
    (the latter serialized with [JSON.stringify]), followed by
    [updated_at = CURRENT_TIMESTAMP], which reads no slot.  The [i]-th
    supplied field is assigned from the fresh slot [i + 2], whose bound value
    is the field's value, and no column of an unsupplied field is assigned by
    the statement. *)
Theorem updateUser_statement (wallet : string) (u : UserData) (w : World) :
  let p := sqlParts env wallet u in
  let nl := String "010" EmptyString in
  let dq := String "034" EmptyString in
  let text :=
    nl +:+ "    UPDATE users " +:+ nl
    +:+ "    SET " +:+ JS.join ", " (setClauses p) +:+ nl
    +:+ "    WHERE wallet = $1" +:+ nl
    +:+ "    RETURNING id, wallet, username, email, avatar, bio, streamkey as "
    +:+ dq +:+ "streamKey" +:+ dq +:+ ", socialLinks, updated_at" +:+ nl
    +:+ "  " in
  (updateUser env wallet u w).2 = log_query text (values p) w
  ∧ query (setClauses p) = text
  ∧ setClauses p = (imap assignment (supplied env u) ++ ["updated_at = CURRENT_TIMESTAMP"])%list
  ∧ values p = wallet :: (supplied env u).*2
  ∧ (∀ (i : nat) column v,
        supplied env u !! i = Some (column, v) →
        setClauses p !! i = Some (column +:+ " = $" +:+ JS.Z_to_string (Z.of_nat i + 2))
        ∧ clause_slot (column +:+ " = $" +:+ JS.Z_to_string (Z.of_nat i + 2)) = Some (Z.of_nat i + 2)
        ∧ values p !! Z.to_nat (Z.of_nat i + 2 - 1) = Some v)
  ∧ clause_slot "updated_at = CURRENT_TIMESTAMP" = None
  ∧ (∀ column, (column, false) ∈ field_columns u →
        column ∉ map clause_column (setClauses p)).
Proof.
  intros p nl dq text. subst p nl dq text.
  split; [apply updateUser_world|].
  split; [reflexivity|].
  split; [apply sqlParts_setClauses|].
  split; [apply sqlParts_values|].
  split; [|split; [reflexivity|]].
  - intros i column v Hi.
    assert (Hlt : (i < length (imap assignment (supplied env u)))%nat)
      by (rewrite length_imap; eapply lookup_lt_Some; exact Hi).
    assert (Hclause : setClauses (sqlParts env wallet u) !! i = Some (assignment i (column, v))).
    { rewrite sqlParts_setClauses, lookup_app_l by exact Hlt.
      by rewrite list_lookup_imap, Hi. }
    assert (Hslot : map clause_slot (setClauses (sqlParts env wallet u)) !! i
                    = Some (Some (Z.of_nat i + 2))).
    { rewrite sqlParts_slots, lookup_app_l by
        (rewrite length_imap; eapply lookup_lt_Some; exact Hi).
      by rewrite list_lookup_imap, Hi. }
    split; [exact Hclause|].
    split.
    + change (map clause_slot) with (fmap (M:=list) clause_slot) in Hslot.
      rewrite list_lookup_fmap, Hclause in Hslot.
      injection Hslot as Hslot. exact Hslot.
    + rewrite sqlParts_values.
      replace (Z.to_nat (Z.of_nat i + 2 - 1)) with (S i) by lia.
      change ((supplied env u).*2 !! i = Some v).
      by rewrite list_lookup_fmap, Hi.
  - intros column Hin. rewrite sqlParts_columns.
    intros Hcol. apply elem_of_app in Hcol as [Hcol|Hcol].
    + by apply (unsupplied_not_assigned u column).
    + apply list_elem_of_singleton in Hcol as ->.
      revert Hin. clear. by_fields u; cbn; intros Hin; set_unfold; naive_solver.
Qed.

(** C7.  The statement text depends only on which fields the mapping
    supplies: for two mappings supplying the same fields, [updateUser] sends
    the same text, whatever the values and the wallets, and the values travel
    in the bound array, after the wallet, in the order of their clauses. *)
Theorem statement_text_ignores_values (wallet1 wallet2 : string) (u1 u2 : UserData)
    (w1 w2 : World) :
  supplies u1 = supplies u2 →
  query (setClauses (sqlParts env wallet1 u1)) = query (setClauses (sqlParts env wallet2 u2))
  ∧ (updateUser env wallet1 u1 w1).2
    = log_query (query (setClauses (sqlParts env wallet1 u1)))
        (wallet1 :: (supplied env u1).*2) w1
  ∧ (updateUser env wallet2 u2 w2).2
    = log_query (query (setClauses (sqlParts env wallet2 u2)))
        (wallet2 :: (supplied env u2).*2) w2.
Proof.
  intros Hsame. split; [|split; by rewrite updateUser_world, sqlParts_values].
  f_equal. revert Hsame.
  by_fields u1; by_fields u2; cbn; intros Hsame; first [discriminate Hsame | reflexivity].
Qed.

Lemma apply_clause_other vals now (row : Row) clause column :
  clause_column clause ≠ column →
  apply_clause vals now row clause !! column = row !! column.
Proof.
  unfold apply_clause, clause_column.
  destruct (split_once " = " clause) as [[c rhs]|]; [|done].
  intros Hne. destruct (bound_value vals now rhs); [|done].
  by apply lookup_insert_ne.
Qed.

Lemma apply_clauses_other vals now clauses column :
  column ∉ map clause_column clauses →
  ∀ row : Row, foldl (apply_clause vals now) row clauses !! column = row !! column.
Proof.
  induction clauses as [|c cs IH]; intros Hnot row; [done|].
  cbn. rewrite IH.
  - apply apply_clause_other. intros Heq. apply Hnot. cbn. rewrite Heq. apply list_elem_of_here.
  - intros Hin. apply Hnot. cbn. by apply list_elem_of_further.
Qed.

Lemma run_update_other clauses vals now table column :
  column ∉ map clause_column clauses →
  map (λ row : Row, row !! column) (run_update clauses vals now table)
  = map (λ row : Row, row !! column) table.
Proof.
  intros Hnot. unfold run_update. rewrite map_map.
  apply map_ext. intros row. case_bool_decide; [|done].
  by apply apply_clauses_other.
Qed.

(** C8.  For every update mapping, no SET clause assigns the wallet column
    and none reads slot 1; the wallet is the value bound to slot 1, which the
    statement uses in [WHERE wallet = $1].  Hence executing the statement
    leaves the wallet column of every row as it was. *)
Theorem wallet_never_assigned (wallet : string) (u : UserData) :
  let p := sqlParts env wallet u in
  ("wallet" ∉ map clause_column (setClauses p))
  ∧ (Some 1 ∉ map clause_slot (setClauses p))
  ∧ values p !! 0%nat = Some wallet
  ∧ JS.includes "WHERE wallet = $1" (query (setClauses p)) = true
  ∧ ∀ now table,
      map (λ row : Row, row !! "wallet") (run_update (setClauses p) (values p) now table)
      = map (λ row : Row, row !! "wallet") table.
Proof.
  intros p. subst p.
  assert (Hcol : "wallet" ∉ map clause_column (setClauses (sqlParts env wallet u))).
  { rewrite sqlParts_columns. intros Hin. apply elem_of_app in Hin as [Hin|Hin].
    - apply supplied_columns_known in Hin.
      repeat (apply elem_of_cons in Hin as [Hin|Hin]; [discriminate Hin|]).
      by apply elem_of_nil in Hin.
    - by apply list_elem_of_singleton in Hin. }
  split; [exact Hcol|].
  split.
  { rewrite sqlParts_slots. intros Hin. apply elem_of_app in Hin as [Hin|Hin].
    - apply elem_of_lookup_imap in Hin as (i & x & Heq & _). injection Heq. lia.
    - by apply list_elem_of_singleton in Hin. }
  split; [by rewrite sqlParts_values|].
  split; [by_fields u; vm_compute; reflexivity|].
  intros now table. by apply run_update_other.
Qed.

End UpdateStatement.

Lemma updateUser_statement_witness :
  setClauses (sqlParts Sample.env0 "0xabc" Sample.nova_bio) !! 1%nat = Some "bio = $3"
  ∧ clause_slot "bio = $3" = Some 3
  ∧ values (sqlParts Sample.env0 "0xabc" Sample.nova_bio) !! 2%nat = Some "hi"
  ∧ ("email" ∉ map clause_column (setClauses (sqlParts Sample.env0 "0xabc" Sample.nova_bio)))
  ∧ JS.includes "SET username = $2, bio = $3, updated_at = CURRENT_TIMESTAMP"
      (query (setClauses (sqlParts Sample.env0 "0xabc" Sample.nova_bio))) = true.
Proof.
  pose proof (updateUser_statement Sample.env0 "0xabc" Sample.nova_bio Sample.world0)
    as (_ & Htext & _ & _ & Hslot & _ & Hother).
  destruct (Hslot 1%nat "bio" "hi" eq_refl) as (Hclause & Hread & Hvalue).
  split; [exact Hclause|]. split; [exact Hread|]. split; [exact Hvalue|].
  split.
  - apply Hother. cbn. apply list_elem_of_further, list_elem_of_here.
  - rewrite Htext. reflexivity.
Defined.

Lemma wallet_never_assigned_witness :
  ("wallet" ∉ map clause_column (setClauses (sqlParts Sample.env0 "0xabc" Sample.hostile)))
  ∧ values (sqlParts Sample.env0 "0xabc" Sample.hostile) !! 0%nat = Some "0xabc"
  ∧ map (λ row : Row, row !! "wallet")
      (run_update (setClauses (sqlParts Sample.env0 "0xabc" Sample.hostile))
         (values (sqlParts Sample.env0 "0xabc" Sample.hostile)) "2024-01-01"
         [ {[ "wallet" := VText "0xabc"; "username" := VText "old" ]};
           {[ "wallet" := VText "0xdef" ]} ])
    = [Some (VText "0xabc"); Some (VText "0xdef")].
Proof.
  pose proof (wallet_never_assigned Sample.env0 "0xabc" Sample.hostile)
    as (Hcol & _ & Hfirst & _ & Hrows).
  split; [exact Hcol|]. split; [exact Hfirst|].
  rewrite Hrows. reflexivity.
Defined.

Example run_update_example :
  run_update (setClauses (sqlParts Sample.env0 "0xabc" Sample.nova_bio))
    (values (sqlParts Sample.env0 "0xabc" Sample.nova_bio)) "2024-01-01"
    [ {[ "wallet" := VText "0xabc"; "username" := VText "old" ]};
      {[ "wallet" := VText "0xdef"; "username" := VText "other" ]} ]
  = [ {[ "wallet" := VText "0xabc"; "username" := VText "nova"; "bio" := VText "hi";
         "updated_at" := VText "2024-01-01" ]};
      {[ "wallet" := VText "0xdef"; "username" := VText "other" ]} ].
Proof. reflexivity. Qed.

Lemma statement_text_ignores_values_witness :
  supplies Sample.nova_bio = supplies Sample.hostile
  ∧ query (setClauses (sqlParts Sample.env0 "0xabc" Sample.nova_bio))
    = query (setClauses (sqlParts Sample.env0 "0xdef" Sample.hostile))
  ∧ (updateUser Sample.env0 "0xabc" Sample.nova_bio Sample.world0).2
    = log_query (query ["username = $2"; "bio = $3"; "updated_at = CURRENT_TIMESTAMP"])
        ["0xabc"; "nova"; "hi"] Sample.world0
  ∧ (updateUser Sample.env0 "0xdef" Sample.hostile Sample.world0).2
    = log_query (query ["username = $2"; "bio = $3"; "updated_at = CURRENT_TIMESTAMP"])
        ["0xdef"; "x', wallet = 'mine"; "$1; DROP TABLE users"] Sample.world0.
Proof.
  split; [reflexivity|].
  exact (statement_text_ignores_values Sample.env0 "0xabc" "0xdef"
           Sample.nova_bio Sample.hostile Sample.world0 Sample.world0 eq_refl).
Defined.

(** ** Strings and arrays *)

Section Strings.

Lemma append_nil (b : string) : EmptyString +:+ b = b.
Proof. reflexivity. Qed.

Lemma append_cons d (a b : string) : String d a +:+ b = String d (a +:+ b).
Proof. reflexivity. Qed.

Lemma append_assoc (a b c : string) : (a +:+ b) +:+ c = a +:+ (b +:+ c).
Proof.
  induction a as [|d a IH]; [done|].
  rewrite !append_cons. by rewrite IH.
Qed.

Lemma split_free c s : has_char c s = false → JS.split c s = [s].
Proof.
  induction s as [|d s IH]; [done|]. cbn. intros Hfree.
  apply orb_false_iff in Hfree as [Hd Hs]. rewrite Hd, (IH Hs). reflexivity.
Qed.

Lemma split_app c a b :
  has_char c a = false → JS.split c (a +:+ String c b) = a :: JS.split c b.
Proof.
  induction a as [|d a IH]; cbn.
  - intros _. rewrite append_nil. cbn. by rewrite Ascii.eqb_refl.
  - intros Hfree. apply orb_false_iff in Hfree as [Hd Ha].
    rewrite append_cons. cbn. rewrite Hd, (IH Ha). reflexivity.
Qed.

Lemma join_cons sep x y l :
  JS.join sep (x :: y :: l) = x +:+ sep +:+ JS.join sep (y :: l).
Proof. reflexivity. Qed.

Lemma split_join c (segs : list string) :
  segs ≠ [] →
  Forall (λ seg, has_char c seg = false) segs →
  JS.split c (JS.join (String c EmptyString) segs) = segs.
Proof.
  induction segs as [|x [|y l] IH]; [done| |]; intros _ Hall.
  - apply split_free. by inversion Hall.
  - rewrite join_cons. inversion Hall as [|? ? Hx Hrest]; subst.
    change (String c EmptyString +:+ JS.join (String c EmptyString) (y :: l))
      with (String c (JS.join (String c EmptyString) (y :: l))).
    rewrite (split_app _ _ _ Hx), IH; done.
Qed.

Lemma join_snoc sep (l : list string) x :
  l ≠ [] → JS.join sep (l ++ [x])%list = JS.join sep l +:+ sep +:+ x.
Proof.
  induction l as [|a [|b l] IH]; [done| |]; intros _.
  - reflexivity.
  - change (JS.join sep ((a :: b :: l) ++ [x])%list)
      with (a +:+ sep +:+ JS.join sep ((b :: l) ++ [x])%list).
    rewrite IH by done. rewrite join_cons.
    by rewrite !append_assoc.
Qed.

Lemma findIndex_from_here {A} (p : A → bool) pre x rest i :
  Forall (λ y, p y = false) pre → p x = true →
  JS.findIndex_from p (pre ++ x :: rest)%list i = i + Z.of_nat (length pre).
Proof.
  intros Hpre Hx. revert i.
  induction Hpre as [|y pre Hy _ IH]; intros i; cbn [app JS.findIndex_from length].
  - rewrite Hx. lia.
  - rewrite Hy, IH. lia.
Qed.

Lemma findIndex_from_none {A} (p : A → bool) l i :
  Forall (λ y, p y = false) l → JS.findIndex_from p l i = -1.
Proof.
  intros Hl. revert i. induction Hl as [|y l Hy _ IH]; intros i; cbn; [done|].
  by rewrite Hy.
Qed.

Lemma not_upload (l : list string) :
  "upload" ∉ l → Forall (λ y, String.eqb "upload" y = false) l.
Proof.
  intros Hnot. apply Forall_forall. intros y Hy.
  apply String.eqb_neq. intros <-. done.
Qed.

Lemma lastIndexOf_from_free c s i found :
  has_char c s = false → JS.lastIndexOf_from c s i found = found.
Proof.
  revert i found. induction s as [|d s IH]; intros i found; cbn; [done|].
  intros Hfree. apply orb_false_iff in Hfree as [Hd Hs]. by rewrite Hd, IH.
Qed.

Lemma lastIndexOf_from_last c a b i found :
  has_char c b = false →
  JS.lastIndexOf_from c (a +:+ String c b) i found = i + Z.of_nat (String.length a).
Proof.
  intros Hb. revert i found. induction a as [|d a IH]; intros i found.
  - rewrite append_nil. cbn. rewrite Ascii.eqb_refl, lastIndexOf_from_free by done. lia.
  - rewrite append_cons. cbn. rewrite IH. lia.
Qed.

Lemma substring_prefix a b :
  String.substring 0 (String.length a) (a +:+ b) = a.
Proof.
  induction a as [|d a IH].
  - rewrite append_nil. by destruct b.
  - rewrite append_cons. cbn. by rewrite IH.
Qed.

Lemma length_append a b :
  String.length (a +:+ b) = (String.length a + String.length b)%nat.
Proof.
  induction a as [|d a IH]; [done|].
  rewrite append_cons. cbn. by rewrite IH.
Qed.

(** [name.ext] loses its extension. *)
Lemma strip_extension name ext :
  has_char "." ext = false →
  JS.substring 0 (JS.lastIndexOf "." (name +:+ "." +:+ ext)) (name +:+ "." +:+ ext) = name.
Proof.
  intros Hext. unfold JS.lastIndexOf.
  change (name +:+ "." +:+ ext) with (name +:+ String "." ext).
  rewrite lastIndexOf_from_last by done.
  unfold JS.substring, JS.clamp. rewrite length_append. cbn [String.length].
  replace (Z.min _ _) with 0 by lia.
  replace (Z.max (Z.max 0 (Z.min 0 _)) _ - 0) with (Z.of_nat (String.length name)) by lia.
  rewrite Nat2Z.id. apply substring_prefix.
Qed.

(** A name without a dot loses everything: [substring(0, -1)] is empty. *)
Lemma strip_extension_none s :
  has_char "." s = false → JS.substring 0 (JS.lastIndexOf "." s) s = EmptyString.
Proof.
  intros Hs. unfold JS.lastIndexOf. rewrite lastIndexOf_from_free by done.
  unfold JS.substring, JS.clamp.
  replace (Z.min (Z.max 0 (Z.min 0 _)) _) with 0 by lia.
  replace (Z.max (Z.max 0 (Z.min 0 _)) _ - 0) with 0 by lia.
  by destruct s.
Qed.

Lemma set_last_snoc {A} (l : list A) x y : JS.set_last y (l ++ [x])%list = (l ++ [y])%list.
Proof.
  unfold JS.set_last. rewrite length_app. cbn [length].
  replace (Nat.pred (length l + 1)) with (length l + 0)%nat by lia.
  by rewrite insert_app_r.
Qed.

End Strings.

(** ** Dcloudinary.ts: deriving the public id *)

Section PublicId.

Context (env : Env).

Lemma publicId_of_parts path pre ver mid lastseg :
  JS.split "/" path = (pre ++ "upload" :: ver :: mid ++ [lastseg])%list →
  "upload" ∉ pre →
  publicId_of_pathname path
  = Some (JS.join "/" (mid ++ [JS.substring 0 (JS.lastIndexOf "." lastseg) lastseg])%list).
Proof.
  intros Hsplit Hpre. unfold publicId_of_pathname. rewrite Hsplit.
  unfold JS.findIndex.
  rewrite findIndex_from_here by (by apply not_upload || reflexivity).
  rewrite !length_app. cbn [length]. rewrite length_app. cbn [length].
  replace (Z.eqb _ _) with false by (symmetry; apply Z.eqb_neq; lia).
  replace (Z.geb _ _) with false by (symmetry; rewrite Z.geb_leb; apply Z.leb_gt; lia).
  cbn [orb]. unfold JS.slice_from.
  replace (Z.to_nat (0 + Z.of_nat (length pre) + 2)) with (length pre + 2)%nat by lia.
  rewrite drop_app_add'. 2: reflexivity.
  cbn [drop]. rewrite (drop_0 (mid ++ [lastseg])%list), last_snoc. cbn [default]. by rewrite set_last_snoc.
Qed.

Lemma publicId_no_marker path :
  "upload" ∉ JS.split "/" path → publicId_of_pathname path = None.
Proof.
  intros Hnot. unfold publicId_of_pathname, JS.findIndex.
  by rewrite findIndex_from_none by (by apply not_upload).
Qed.

Lemma publicId_too_short path pre rest :
  JS.split "/" path = (pre ++ "upload" :: rest)%list →
  "upload" ∉ pre → (length rest < 2)%nat →
  publicId_of_pathname path = None.
Proof.
  intros Hsplit Hpre Hshort. unfold publicId_of_pathname. rewrite Hsplit.
  unfold JS.findIndex.
  rewrite findIndex_from_here by (by apply not_upload || reflexivity).
  rewrite length_app. cbn [length].
  replace (Z.geb _ _) with true by (symmetry; rewrite Z.geb_leb; apply Z.leb_le; lia).
  by rewrite orb_true_r.
Qed.

Lemma extract_of_pathname url path w :
  URL_pathname env url = Some path →
  extractPublicIdFromUrl env url w = (inr (publicId_of_pathname path), w).
Proof. intros Hpath. unfold extractPublicIdFromUrl. by rewrite Hpath. Qed.

(** What [deleteImage] does when no usable public id comes out. *)
Lemma deleteImage_invalid url path w :
  URL_pathname env url = Some path →
  JS.truthy_opt (publicId_of_pathname path) = false →
  deleteImage env url w
  = (inl "Failed to delete image from Cloudinary",
     log_console "Error deleting from Cloudinary:" "Invalid Cloudinary URL" w).
Proof.
  intros Hpath Hid. unfold deleteImage, try_catch, bind.
  rewrite (extract_of_pathname _ _ _ Hpath), Hid. reflexivity.
Qed.

(** What [deleteImage] does with a usable public id: the remote delete is
    called with it. *)
Lemma deleteImage_destroys url path pid w :
  URL_pathname env url = Some path →
  publicId_of_pathname path = Some pid → JS.truthy pid = true →
  destroyed (deleteImage env url w).2 = (destroyed w ++ [pid])%list.
Proof.
  intros Hpath Hid Htruthy. unfold deleteImage, try_catch, bind.
  rewrite (extract_of_pathname _ _ _ Hpath), Hid. cbn [JS.truthy_opt].
  rewrite Htruthy. cbn [negb]. unfold uploader_destroy.
  destruct (destroy_answer env _); reflexivity.
Qed.

Lemma truthy_snoc (a b : string) : JS.truthy b = true → JS.truthy (a +:+ b) = true.
Proof. destruct a; [by rewrite append_nil | done]. Qed.

(** C3 (amended).  When the path of the address is
    [/<prefix...>/upload/<version>/<folders...>/<name>.<ext>], no segment of
    the prefix is [upload] and the extension has no dot,
    [extractPublicIdFromUrl] returns exactly [<folders...>/<name>] and changes
    nothing.  When the path has no [upload] segment, or fewer than two
    segments follow the first one, [deleteImage] never calls the remote
    delete: the error [Invalid Cloudinary URL] it raises is logged by its own
    [catch], and the caller gets [Failed to delete image from Cloudinary]. *)
Theorem public_id_roundtrip (url : string) (w : World) :
  (∀ pre version folders name ext,
      URL_pathname env url = Some (asset_path pre version folders name ext) →
      Forall (λ seg, has_char "/" seg = false)
             (pre ++ version :: folders ++ [name +:+ "." +:+ ext])%list →
      "upload" ∉ pre →
      has_char "." ext = false →
      extractPublicIdFromUrl env url w = (inr (Some (asset_id folders name)), w))
  ∧ (∀ path,
      URL_pathname env url = Some path →
      (("upload" ∉ JS.split "/" path)
       ∨ ∃ pre rest, JS.split "/" path = (pre ++ "upload" :: rest)%list
                     ∧ ("upload" ∉ pre) ∧ (length rest < 2)%nat) →
      deleteImage env url w
      = (inl "Failed to delete image from Cloudinary",
         log_console "Error deleting from Cloudinary:" "Invalid Cloudinary URL" w)).
Proof.
  split.
  - intros pre version folders name ext Hpath Hsegs Hpre Hext.
    rewrite (extract_of_pathname _ _ _ Hpath). f_equal. f_equal.
    unfold asset_path, asset_id.
    rewrite (publicId_of_parts _ (EmptyString :: pre) version folders (name +:+ "." +:+ ext)).
    + by rewrite strip_extension.
    + apply (split_join "/"); [done|].
      apply Forall_cons. split; [done|].
      apply Forall_app in Hsegs as [Hp Hrest].
      apply Forall_app. split; [done|]. by apply Forall_cons.
    + intros Hin. apply elem_of_cons in Hin as [Hin|Hin]; [discriminate Hin | done].
  - intros path Hpath Hbad. apply (deleteImage_invalid _ _ _ Hpath).
    destruct Hbad as [Hnone | (pre & rest & Hsplit & Hpre & Hshort)].
    + by rewrite publicId_no_marker.
    + by rewrite (publicId_too_short _ _ _ Hsplit).
Qed.

(** The first [upload] segment of a path that has one. *)
Lemma first_marker (before after : list string) :
  ∃ pre rest,
    (before ++ "upload" :: after = pre ++ "upload" :: rest)%list
    ∧ ("upload" ∉ pre)
    ∧ after `suffix_of` rest
    ∧ ("upload" ∉ before → rest = after).
Proof.
  induction before as [|b before (pre & rest & Heq & Hpre & Hsuf & Hsame)].
  - exists [], after. split; [done|]. split; [apply not_elem_of_nil|]. done.
  - destruct (decide (b = "upload")) as [->|Hb].
    + exists [], (before ++ "upload" :: after)%list.
      split; [done|]. split; [apply not_elem_of_nil|]. split.
      * by apply suffix_app_r, suffix_cons_r.
      * intros Hnot. exfalso. apply Hnot, list_elem_of_here.
    + exists (b :: pre), rest. cbn. rewrite Heq.
      split; [done|]. split; [|split; [done|]].
      * intros Hin. apply elem_of_cons in Hin as [Hin|Hin]; [by subst | done].
      * intros Hnot. apply Hsame. intros Hin. by apply Hnot, list_elem_of_further.
Qed.

(** C10 (amended).  When the path has an [upload] segment followed by at
    least two further segments and its final segment has no dot,
    [extractPublicIdFromUrl] does not fail: the identifier it returns ends
    with an empty final segment.  If segments lie between the version and
    the final segment (as when three or more segments follow [upload]), the
    identifier ends in [/] and [deleteImage] calls the remote delete with
    it.  If the final segment comes right after the version (the first
    [upload] is followed by exactly two segments), the identifier is the
    empty string and [deleteImage] fails without calling the remote delete. *)
Theorem extensionless_public_id (url path : string) (before after : list string)
    (w : World) :
  URL_pathname env url = Some path →
  JS.split "/" path = (before ++ "upload" :: after)%list →
  (2 ≤ length after)%nat →
  (∀ lastseg, last after = Some lastseg → has_char "." lastseg = false) →
  ∃ mid : list string,
    extractPublicIdFromUrl env url w
    = (inr (Some (JS.join "/" (mid ++ [EmptyString])%list)), w)
    ∧ (mid ≠ [] →
         JS.join "/" (mid ++ [EmptyString])%list = JS.join "/" mid +:+ "/"
         ∧ destroyed (deleteImage env url w).2
           = (destroyed w ++ [JS.join "/" mid +:+ "/"])%list)
    ∧ (mid = [] →
         JS.join "/" (mid ++ [EmptyString])%list = EmptyString
         ∧ deleteImage env url w
           = (inl "Failed to delete image from Cloudinary",
              log_console "Error deleting from Cloudinary:" "Invalid Cloudinary URL" w))
    ∧ ((3 ≤ length after)%nat → mid ≠ [])
    ∧ ("upload" ∉ before → length after = 2%nat → mid = []).
Proof.
  intros Hpath Hsplit Hlen Hdot.
  destruct (first_marker before after) as (pre & rest & Heq & Hpre & [k ->] & Hsame).
  rewrite Heq in Hsplit. clear Heq.
  destruct after as [|lastseg front _] using rev_ind; [cbn in Hlen; lia|].
  rewrite length_app in Hlen. cbn in Hlen.
  specialize (Hdot lastseg (last_snoc _ _)).
  destruct (k ++ front)%list as [|version mid] eqn:Hfront.
  { apply (f_equal length) in Hfront. rewrite length_app in Hfront. cbn in Hfront. lia. }
  assert (Hparts : JS.split "/" path
                   = (pre ++ "upload" :: version :: mid ++ [lastseg])%list).
  { rewrite Hsplit. do 2 f_equal.
    change (version :: mid ++ [lastseg])%list with ((version :: mid) ++ [lastseg])%list.
    by rewrite <- Hfront, <- app_assoc. }
  pose proof (publicId_of_parts _ _ _ _ _ Hparts Hpre) as Hid.
  rewrite strip_extension_none in Hid by done.
  exists mid.
  split; [by rewrite (extract_of_pathname _ _ _ Hpath), Hid|].
  split; [|split; [|split]].
  - intros Hmid.
    assert (Hjoin : JS.join "/" (mid ++ [EmptyString])%list = JS.join "/" mid +:+ "/")
      by (by rewrite join_snoc).
    split; [exact Hjoin|].
    rewrite Hjoin in Hid.
    apply (deleteImage_destroys _ _ _ _ Hpath Hid). by apply truthy_snoc.
  - intros ->. split; [reflexivity|].
    apply (deleteImage_invalid _ _ _ Hpath). by rewrite Hid.
  - intros Hthree ->. rewrite length_app in Hthree. cbn in Hthree.
    apply (f_equal length) in Hfront. rewrite length_app in Hfront. cbn in Hfront. lia.
  - intros Hnot Htwo. specialize (Hsame Hnot).
    rewrite length_app in Htwo. cbn in Htwo.
    apply (f_equal length) in Hsame, Hfront.
    rewrite !length_app in Hsame. rewrite length_app in Hfront.
    cbn in Hsame, Hfront. destruct mid; [done|]. cbn in Hfront. lia.
Qed.

End PublicId.

(** The address of a stored asset gives back its identifier; an address
    from elsewhere is refused before the store is contacted. *)
Lemma public_id_roundtrip_witness :
  extractPublicIdFromUrl Sample.env0 Sample.asset_url Sample.world0
  = (inr (Some "user_avatars/k3x9"), Sample.world0)
  ∧ deleteImage Sample.env0 Sample.foreign_url Sample.world0
    = (inl "Failed to delete image from Cloudinary",
       mkWorld ∅ [("Error deleting from Cloudinary:", "Invalid Cloudinary URL")] [] [] []).
Proof.
  split.
  - apply (proj1 (public_id_roundtrip Sample.env0 Sample.asset_url
                    Sample.world0)
             ["demo"; "image"] "v1700000000" ["user_avatars"] "k3x9" "png").
    + reflexivity.
    + repeat constructor.
    + intros Hin. repeat (apply elem_of_cons in Hin as [Hin|Hin]; [discriminate Hin|]).
      by apply elem_of_nil in Hin.
    + reflexivity.
  - apply (proj2 (public_id_roundtrip Sample.env0 Sample.foreign_url
                    Sample.world0) "/pictures/cat.png").
    + reflexivity.
    + left. intros Hin. repeat (apply elem_of_cons in Hin as [Hin|Hin]; [discriminate Hin|]).
      by apply elem_of_nil in Hin.
Defined.

(** C3, as stated, fails: with a prefix segment equal to [upload] (a cloud
    of that name) the address has the stated form, yet the derived identifier
    is not the asset's. *)
Lemma roundtrip_fails_on_marker_in_prefix :
  Sample.pathname Sample.marker_cloud_url
  = Some (asset_path ["upload"; "image"] "v1" ["user_avatars"] "abc" "jpg")
  ∧ extractPublicIdFromUrl Sample.env0 Sample.marker_cloud_url Sample.world0
    = (inr (Some "upload/v1/user_avatars/abc"), Sample.world0)
  ∧ asset_id ["user_avatars"] "abc" = "user_avatars/abc"
  ∧ "upload/v1/user_avatars/abc" ≠ asset_id ["user_avatars"] "abc".
Proof. repeat split; try reflexivity. discriminate. Qed.

Lemma extensionless_public_id_witness :
  ∃ mid : list string,
    mid ≠ []
    ∧ extractPublicIdFromUrl Sample.env0 Sample.nested_bare_url Sample.world0
      = (inr (Some (JS.join "/" (mid ++ [EmptyString])%list)), Sample.world0)
    ∧ destroyed (deleteImage Sample.env0 Sample.nested_bare_url Sample.world0).2
      = [JS.join "/" mid +:+ "/"].
Proof.
  destruct (extensionless_public_id Sample.env0 Sample.nested_bare_url
              "/demo/image/upload/v1700000000/user_avatars/k3x9"
              [EmptyString; "demo"; "image"] ["v1700000000"; "user_avatars"; "k3x9"]
              Sample.world0)
    as (mid & Hid & Hends & _ & Hthree & _).
  - reflexivity.
  - reflexivity.
  - cbn. lia.
  - intros lastseg [= <-]. reflexivity.
  - exists mid. split; [apply Hthree; cbn; lia|].
    split; [exact Hid|]. apply Hends, Hthree. cbn. lia.
Defined.

Example nested_extensionless_address :
  extractPublicIdFromUrl Sample.env0 Sample.nested_bare_url Sample.world0
  = (inr (Some "user_avatars/"), Sample.world0)
  ∧ destroyed (deleteImage Sample.env0 Sample.nested_bare_url Sample.world0).2
    = ["user_avatars/"].
Proof. split; reflexivity. Qed.

(** C10, as stated, fails: with exactly two segments after [upload] and no
    dot in the last one, the identifier is the empty string, which does not
    end in [/], and [deleteImage] stops before the remote delete. *)
Lemma extensionless_two_segments_not_deleted :
  JS.split "/" "/demo/image/upload/v1700000000/k3x9"
  = [EmptyString; "demo"; "image"; "upload"; "v1700000000"; "k3x9"]
  ∧ Sample.pathname Sample.bare_url = Some "/demo/image/upload/v1700000000/k3x9"
  ∧ has_char "." "k3x9" = false
  ∧ extractPublicIdFromUrl Sample.env0 Sample.bare_url Sample.world0
    = (inr (Some EmptyString), Sample.world0)
  ∧ (deleteImage Sample.env0 Sample.bare_url Sample.world0).1
    = inl "Failed to delete image from Cloudinary"
  ∧ destroyed (deleteImage Sample.env0 Sample.bare_url Sample.world0).2 = [].
Proof. repeat split; reflexivity. Qed.

(** ** The handler *)

Section Handler.

Context (env : Env).

Lemma grows_ret {A} (a : A) : grows (ret a).
Proof. intros w. exists []. by rewrite app_nil_r. Qed.

Lemma grows_throw {A} e : grows (throw (A:=A) e).
Proof. intros w. exists []. by rewrite app_nil_r. Qed.

Lemma grows_bind {A B} (m : M A) (k : A → M B) :
  grows m → (∀ a, grows (k a)) → grows (bind m k).
Proof.
  intros Hm Hk w. unfold bind. destruct (Hm w) as [l1 H1].
  destruct (m w) as [[e|a] w1]; cbn in *.
  - by exists l1.
  - destruct (Hk a w1) as [l2 H2]. exists (l1 ++ l2)%list.
    by rewrite H2, H1, app_assoc.
Qed.

Lemma grows_try_catch {A} (m : M A) (h : Error → M A) :
  grows m → (∀ e, grows (h e)) → grows (try_catch m h).
Proof.
  intros Hm Hh w. unfold try_catch. destruct (Hm w) as [l1 H1].
  destruct (m w) as [[e|a] w1]; cbn in *.
  - destruct (Hh e w1) as [l2 H2]. exists (l1 ++ l2)%list.
    by rewrite H2, H1, app_assoc.
  - by exists l1.
Qed.

Lemma grows_console_error label e : grows (console_error label e).
Proof. intros w. exists []. by rewrite app_nil_r. Qed.

Lemma grows_readFileSync path : grows (readFileSync path).
Proof.
  intros w. exists []. unfold readFileSync.
  destruct (disk w !! path); by rewrite app_nil_r.
Qed.

Lemma grows_unlinkSync path : grows (unlinkSync path).
Proof.
  intros w. exists []. unfold unlinkSync.
  destruct (disk w !! path); by rewrite app_nil_r.
Qed.

Lemma grows_upload_stream folder buffer : grows (upload_stream env folder buffer).
Proof. intros w. exists []. by rewrite app_nil_r. Qed.

Lemma grows_pool_query text vals : grows (pool_query env text vals).
Proof. intros w. by exists [(text, vals)]. Qed.

Lemma grows_uploadImage path : grows (uploadImage env path).
Proof.
  apply grows_bind; [|intros; apply grows_upload_stream].
  apply grows_try_catch; [apply grows_readFileSync|].
  intros e. apply grows_bind; [apply grows_console_error | intros; apply grows_throw].
Qed.

Lemma grows_avatar_upload files u : grows (avatar_upload env files u).
Proof.
  unfold avatar_upload. destruct (files !! "avatar") as [entry|]; [|apply grows_ret].
  destruct (first_file entry); [|apply grows_throw].
  apply grows_try_catch.
  - apply grows_bind; [apply grows_uploadImage|]. intros url.
    apply grows_bind; [apply grows_unlinkSync | intros; apply grows_ret].
  - intros e. apply grows_bind; [apply grows_console_error | intros; apply grows_ret].
Qed.

Lemma grows_updateUser wallet u : grows (updateUser env wallet u).
Proof. apply grows_bind; [apply grows_pool_query | intros; apply grows_ret]. Qed.

Lemma grows_persist wallet u : grows (persist env wallet u).
Proof.
  unfold persist. destruct (Z.eqb _ _); [apply grows_ret|].
  apply grows_bind; [apply grows_updateUser | intros; apply grows_ret].
Qed.

Lemma grows_build_and_persist wallet fields files :
  grows (build_and_persist env wallet fields files).
Proof.
  unfold build_and_persist. destruct (social_links _ _ _); [apply grows_ret|].
  apply grows_bind; [apply grows_avatar_upload|].
  intros [r|u']; [apply grows_ret | apply grows_persist].
Qed.

Lemma grows_on_failure e : grows (on_failure e).
Proof. apply grows_bind; [apply grows_console_error | intros; apply grows_ret]. Qed.

Lemma guard_allowed req :
  allowed req →
  negb (String.eqb (method req) "PUT") && negb (String.eqb (method req) "PATCH") = false.
Proof. by intros [-> | ->]. Qed.

(** The handler up to the identity check. *)
Lemma handler_no_identity req fields files w :
  allowed req → body req = inr (fields, files) →
  JS.truthy_opt (resolve_wallet req fields) = false →
  handler env req w
  = (inr (mkResponse 400 (ErrorBody "Wallet address is required")), decoded files w).
Proof.
  intros Hm Hbody Hid. unfold handler. rewrite (guard_allowed _ Hm).
  unfold try_catch, bind, parseFormData. rewrite Hbody, Hid. reflexivity.
Qed.

(** The handler up to the existence check, for any answer of the backend. *)
Lemma handler_identified req fields files id w :
  allowed req → body req = inr (fields, files) →
  resolve_wallet req fields = Some id → JS.truthy id = true →
  handler env req w
  = try_catch
      (let* userExists := checkUserExists env id in
       if negb (sql_truthy userExists) then ret (mkResponse 404 (ErrorBody "User not found"))
       else build_and_persist env id fields files)
      on_failure (decoded files w).
Proof.
  intros Hm Hbody Hid Htruthy. unfold handler. rewrite (guard_allowed _ Hm).
  unfold try_catch at 1 2. unfold bind at 1 3. unfold parseFormData.
  rewrite Hbody, Hid. cbn [JS.truthy_opt]. rewrite Htruthy. reflexivity.
Qed.

(** The handler once the user is known to exist. *)
Lemma handler_after_checks req fields files id row rows w :
  allowed req → body req = inr (fields, files) →
  resolve_wallet req fields = Some id → JS.truthy id = true →
  pool_answer env select_exists [id] = inr (row :: rows) →
  sql_truthy (row !! "exists") = true →
  handler env req w
  = try_catch (build_and_persist env id fields files) on_failure
      (log_query select_exists [id] (decoded files w)).
Proof.
  intros Hm Hbody Hid Htruthy Hrow Hexists.
  rewrite (handler_identified _ _ _ _ _ Hm Hbody Hid Htruthy).
  unfold try_catch, bind at 1, checkUserExists, bind at 1, pool_query.
  rewrite Hrow. unfold ret at 1. rewrite Hexists. reflexivity.
Qed.

(** The handler when the mapping it builds is empty. *)
Lemma handler_empty_mapping req fields files id row rows w :
  allowed req → body req = inr (fields, files) →
  resolve_wallet req fields = Some id → JS.truthy id = true →
  pool_answer env select_exists [id] = inr (row :: rows) →
  sql_truthy (row !! "exists") = true →
  social_links env fields (text_fields fields) = inr emptyUserData →
  files !! "avatar" = None →
  handler env req w
  = (inr (mkResponse 400 (ErrorBody "No update data provided")),
     log_query select_exists [id] (decoded files w)).
Proof.
  intros Hm Hbody Hid Htruthy Hrow Hexists Hsocial Hfile.
  rewrite (handler_after_checks _ _ _ _ _ _ _ Hm Hbody Hid Htruthy Hrow Hexists).
  unfold try_catch, build_and_persist. rewrite Hsocial.
  unfold bind, avatar_upload. rewrite Hfile. reflexivity.
Qed.

(** The handler reads the form fields only through the wallet field and the
    mapping built from them. *)
Lemma handler_same_fields req1 req2 fields1 fields2 files w :
  method req1 = method req2 → query_wallet req1 = query_wallet req2 →
  authorization req1 = authorization req2 →
  body req1 = inr (fields1, files) → body req2 = inr (fields2, files) →
  first_value fields1 "wallet" = first_value fields2 "wallet" →
  social_links env fields1 (text_fields fields1) = social_links env fields2 (text_fields fields2) →
  handler env req1 w = handler env req2 w.
Proof.
  intros Hm Hq Ha Hb1 Hb2 Hw Hs.
  assert (Hres : resolve_wallet req1 fields1 = resolve_wallet req2 fields2)
    by (unfold resolve_wallet; congruence).
  assert (Hbp : ∀ id, build_and_persist env id fields1 files
                      = build_and_persist env id fields2 files)
    by (intros id; unfold build_and_persist; by rewrite Hs).
  unfold handler. rewrite Hm.
  destruct (negb _ && negb _); [done|].
  unfold try_catch, bind at 1 3, parseFormData. rewrite Hb1, Hb2, Hres.
  destruct (negb (JS.truthy_opt _)); [done|].
  by rewrite Hbp.
Qed.

Lemma first_value_delete_ne (fields : Fields) name other :
  name ≠ other → first_value (delete name fields) other = first_value fields other.
Proof. intros Hne. unfold first_value. by rewrite lookup_delete_ne. Qed.

Lemma copy_text_delete (fields : Fields) name other set u :
  JS.truthy_opt (first_value fields name) = false →
  copy_text (delete name fields) other set u = copy_text fields other set u.
Proof.
  intros Hblank. unfold copy_text. destruct (decide (name = other)) as [<-|Hne].
  - unfold first_value at 1. rewrite lookup_delete_eq. cbn. by rewrite Hblank.
  - by rewrite first_value_delete_ne.
Qed.

Lemma text_fields_delete (fields : Fields) name :
  JS.truthy_opt (first_value fields name) = false →
  text_fields (delete name fields) = text_fields fields.
Proof. intros Hblank. unfold text_fields. by rewrite !copy_text_delete. Qed.

Lemma text_fields_delete_other (fields : Fields) name :
  bool_decide (name ∈ text_names) = false →
  text_fields (delete name fields) = text_fields fields.
Proof.
  intros Hother. apply bool_decide_eq_false in Hother.
  assert (Hne : ∀ other, other ∈ text_names → name ≠ other) by (by intros other Hin <-).
  unfold text_fields, copy_text.
  by rewrite !first_value_delete_ne by (apply Hne; unfold text_names; repeat constructor).
Qed.

Lemma social_links_deleted (fields : Fields) u :
  social_links env (delete "socialLinks" fields) u = inr u.
Proof. unfold social_links, first_value. by rewrite lookup_delete_eq. Qed.

Lemma social_links_delete_ne (fields : Fields) name u :
  name ≠ "socialLinks" → social_links env (delete name fields) u = social_links env fields u.
Proof. intros Hne. unfold social_links. by rewrite first_value_delete_ne. Qed.

Lemma resolve_wallet_priority req fields :
  non_empty (resolve_wallet req fields)
  = identity_by_priority (JS.replace "Bearer " "")
      (query_wallet req) (authorization req) (first_value fields "wallet").
Proof.
  unfold resolve_wallet, identity_by_priority, non_empty, JS.or_else.
  destruct (JS.truthy_opt (query_wallet req)) eqn:Hq.
  - rewrite Hq. cbn. rewrite Hq. by destruct (query_wallet req).
  - destruct (JS.truthy_opt (JS.replace "Bearer " "" <$> authorization req)) eqn:Ha.
    + rewrite Ha. by destruct (JS.replace "Bearer " "" <$> authorization req).
    + reflexivity.
Qed.

Lemma non_empty_Some o id : non_empty o = Some id → o = Some id ∧ JS.truthy id = true.
Proof.
  unfold non_empty. destruct o as [s|]; cbn; [|done].
  destruct (JS.truthy s) eqn:Hs; [|done]. by intros [= ->].
Qed.

Lemma non_empty_None o : non_empty o = None → JS.truthy_opt o = false.
Proof. unfold non_empty. by destruct o as [[|c s]|]. Qed.

(** Every run that gets past the identity check starts with the existence
    query of the resolved wallet. *)
Lemma handler_first_query req fields files id w :
  allowed req → body req = inr (fields, files) →
  resolve_wallet req fields = Some id → JS.truthy id = true →
  ∃ later, queries (handler env req w).2 = (queries w ++ (select_exists, [id]) :: later)%list.
Proof.
  intros Hm Hbody Hid Htruthy.
  rewrite (handler_identified _ _ _ _ _ Hm Hbody Hid Htruthy).
  unfold try_catch at 1, bind at 1, checkUserExists, bind at 1, pool_query.
  set (w1 := log_query select_exists [id] (decoded files w)).
  assert (Hw1 : queries w1 = (queries w ++ [(select_exists, [id])])%list) by reflexivity.
  assert (Hfinish : ∀ (m : M Response), grows m →
            ∃ later, queries (try_catch m on_failure w1).2
                     = (queries w ++ (select_exists, [id]) :: later)%list).
  { intros m Hgrows.
    destruct (grows_try_catch m on_failure Hgrows grows_on_failure w1) as [later Hlater].
    exists later. by rewrite Hlater, Hw1, <- app_assoc. }
  destruct (pool_answer env select_exists [id]) as [e|[|row rows]].
  - apply (Hfinish (throw e)), grows_throw.
  - apply (Hfinish (throw _)), grows_throw.
  - unfold ret at 1.
    destruct (negb (sql_truthy (row !! "exists"))).
    + apply (Hfinish (ret _)), grows_ret.
    + apply (Hfinish (build_and_persist env id fields files)), grows_build_and_persist.
Qed.

Lemma replace_unfold pat rep s :
  JS.replace pat rep s
  = if String.prefix pat s then rep +:+ JS.skip (String.length pat) s
    else match s with
         | EmptyString => EmptyString
         | String c rest => String c (JS.replace pat rep rest)
         end.
Proof. by destruct s. Qed.

Lemma includes_unfold pat s :
  JS.includes pat s
  = if String.prefix pat s then true
    else match s with
         | EmptyString => false
         | String _ rest => JS.includes pat rest
         end.
Proof. by destruct s. Qed.

Lemma replace_absent pat rep s : JS.includes pat s = false → JS.replace pat rep s = s.
Proof.
  induction s as [|c s IH]; rewrite includes_unfold, replace_unfold;
    destruct (String.prefix pat _); try done.
  intros Hs. by rewrite IH.
Qed.

(** Where removing the first occurrence and stripping a leading prefix agree. *)
Lemma replace_is_strip h :
  String.prefix "Bearer " h = true ∨ JS.includes "Bearer " h = false →
  JS.replace "Bearer " "" h = strip_leading_bearer h.
Proof.
  unfold strip_leading_bearer. intros [Hpre|Habs].
  - rewrite replace_unfold, Hpre. reflexivity.
  - rewrite (replace_absent _ _ _ Habs).
    rewrite includes_unfold in Habs. by destruct (String.prefix "Bearer " h).
Qed.

(** C2 (amended).  For every PUT or PATCH request whose body decodes, the
    identity is chosen by strict priority: the query parameter [wallet] if
    not empty; otherwise the Authorization header with the first occurrence
    of ["Bearer "] removed, wherever it stands, if the result is not empty
    (for a header that starts with ["Bearer "], or does not contain it, this
    is the header without a leading ["Bearer "]); otherwise the form field
    [wallet] if not empty.  The existence query is issued for that identity.
    If no source yields one, the handler answers 400 [Wallet address is
    required] and does nothing else.  A non-empty query parameter always
    wins. *)
Theorem identity_resolution (req : Request) (fields : Fields) (files : Files) (w : World) :
  allowed req → body req = inr (fields, files) →
  let identity :=
    identity_by_priority (JS.replace "Bearer " "")
      (query_wallet req) (authorization req) (first_value fields "wallet") in
  (∀ id, identity = Some id →
     ∃ later, queries (handler env req w).2
              = (queries w ++ (select_exists, [id]) :: later)%list)
  ∧ (identity = None →
     handler env req w
     = (inr (mkResponse 400 (ErrorBody "Wallet address is required")), decoded files w))
  ∧ (∀ q, query_wallet req = Some q → JS.truthy q = true → identity = Some q)
  ∧ (∀ h, authorization req = Some h →
       String.prefix "Bearer " h = true ∨ JS.includes "Bearer " h = false →
       JS.replace "Bearer " "" h = strip_leading_bearer h).
Proof.
  intros Hm Hbody identity. subst identity.
  rewrite <- resolve_wallet_priority.
  split; [|split; [|split]].
  - intros id Hid. apply non_empty_Some in Hid as [Hid Htruthy].
    by apply (handler_first_query req fields files).
  - intros Hnone. apply (handler_no_identity req fields files w Hm Hbody).
    by apply non_empty_None.
  - intros q Hq Htruthy. rewrite resolve_wallet_priority.
    unfold identity_by_priority, non_empty. rewrite Hq. cbn. by rewrite Htruthy.
  - intros h _. apply replace_is_strip.
Qed.

(** C6 (amended).  For every PUT or PATCH request whose body decodes, whose
    identity resolves and whose user exists: when the mapping built from the
    form is empty and no avatar file is attached, the handler answers 400
    [No update data provided]; the existence query is the only query it has
    issued, so no UPDATE reaches the backend. *)
Theorem empty_mapping_rejected (req : Request) (fields : Fields) (files : Files)
    (id : string) (row : Row) (rows : list Row) (w : World) :
  allowed req → body req = inr (fields, files) →
  resolve_wallet req fields = Some id → JS.truthy id = true →
  pool_answer env select_exists [id] = inr (row :: rows) →
  sql_truthy (row !! "exists") = true →
  social_links env fields (text_fields fields) = inr emptyUserData →
  files !! "avatar" = None →
  handler env req w
  = (inr (mkResponse 400 (ErrorBody "No update data provided")),
     log_query select_exists [id] (decoded files w))
  ∧ queries (handler env req w).2 = (queries w ++ [(select_exists, [id])])%list.
Proof.
  intros Hm Hbody Hid Htruthy Hrow Hexists Hsocial Hfile.
  by rewrite (handler_empty_mapping _ _ _ _ _ _ _ Hm Hbody Hid Htruthy Hrow Hexists Hsocial Hfile).
Qed.

(** C4 (amended).  For every PUT or PATCH request whose body decodes, whose
    identity resolves and whose user exists, and whose [socialLinks] field
    is a non-empty text: if the text fails JSON decoding, the handler answers
    400 [Invalid social links format] having issued the existence query only,
    with no upload and no update; if the text decodes to a value that is not
    an array, the handler does exactly what it does for the same request
    without the [socialLinks] field. *)
Theorem social_links_decoding (req : Request) (fields : Fields) (files : Files)
    (id : string) (row : Row) (rows : list Row) (text : string) (w : World) :
  allowed req → body req = inr (fields, files) →
  resolve_wallet req fields = Some id → JS.truthy id = true →
  pool_answer env select_exists [id] = inr (row :: rows) →
  sql_truthy (row !! "exists") = true →
  first_value fields "socialLinks" = Some text → JS.truthy text = true →
  (JSON_parse env text = None →
     handler env req w
     = (inr (mkResponse 400 (ErrorBody "Invalid social links format")),
        log_query select_exists [id] (decoded files w)))
  ∧ (∀ v, JSON_parse env text = Some v → isArray v = false →
     handler env req w = handler env (drop_field "socialLinks" req) w).
Proof.
  intros Hm Hbody Hid Htruthy Hrow Hexists Hlinks Htext. split.
  - intros Hparse.
    rewrite (handler_after_checks _ _ _ _ _ _ _ Hm Hbody Hid Htruthy Hrow Hexists).
    unfold try_catch, build_and_persist, social_links.
    rewrite Hlinks. cbn [JS.truthy_opt default]. rewrite Htext.
    change (Datatypes.id text) with text. by rewrite Hparse.
  - intros v Hparse Harray.
    apply (handler_same_fields _ _ fields (delete "socialLinks" fields) files);
      try reflexivity; try done.
    + unfold drop_field. by rewrite Hbody.
    + by rewrite first_value_delete_ne.
    + rewrite text_fields_delete_other by (by compute).
      rewrite social_links_deleted. unfold social_links.
      rewrite Hlinks. cbn [JS.truthy_opt default]. rewrite Htext.
      change (Datatypes.id text) with text. rewrite Hparse. by destruct v.
Qed.

Lemma text_fields_never_blank (fields : Fields) :
  username (text_fields fields) ≠ Some EmptyString
  ∧ email (text_fields fields) ≠ Some EmptyString
  ∧ bio (text_fields fields) ≠ Some EmptyString
  ∧ streamKey (text_fields fields) ≠ Some EmptyString.
Proof.
  unfold text_fields, copy_text.
  destruct (first_value fields "username") as [[|??]|],
           (first_value fields "email") as [[|??]|],
           (first_value fields "bio") as [[|??]|],
           (first_value fields "streamKey") as [[|??]|]; cbn; repeat split; discriminate.
Qed.

Lemma text_names_other name :
  name ∈ text_names → name ≠ "wallet" ∧ name ≠ "socialLinks".
Proof. unfold text_names. intros Hin. set_unfold. naive_solver. Qed.

(** C9 (amended).  A text field (username, email, bio, streamKey) whose
    first value is the empty string is treated as absent: the mapping built
    from the form is the same with and without it, and so is everything the
    handler does.  The mapping never holds an empty text.  A PUT or PATCH
    request whose identity resolves and whose user exists, and which carries
    nothing but empty text fields, with no social links and no avatar, is
    answered 400 [No update data provided]. *)
Theorem blank_text_field_is_absent (req : Request) (fields : Fields) (files : Files)
    (w : World) :
  body req = inr (fields, files) →
  (∀ name rest, name ∈ text_names → fields !! name = Some (EmptyString :: rest) →
     text_fields fields = text_fields (delete name fields)
     ∧ handler env req w = handler env (drop_field name req) w)
  ∧ (username (text_fields fields) ≠ Some EmptyString
     ∧ email (text_fields fields) ≠ Some EmptyString
     ∧ bio (text_fields fields) ≠ Some EmptyString
     ∧ streamKey (text_fields fields) ≠ Some EmptyString)
  ∧ (∀ id row rows,
       allowed req →
       resolve_wallet req fields = Some id → JS.truthy id = true →
       pool_answer env select_exists [id] = inr (row :: rows) →
       sql_truthy (row !! "exists") = true →
       (∀ name, name ∈ text_names → JS.truthy_opt (first_value fields name) = false) →
       JS.truthy_opt (first_value fields "socialLinks") = false →
       files !! "avatar" = None →
       handler env req w
       = (inr (mkResponse 400 (ErrorBody "No update data provided")),
          log_query select_exists [id] (decoded files w))).
Proof.
  intros Hbody. split; [|split; [apply text_fields_never_blank|]].
  - intros name rest Hname Hblank.
    destruct (text_names_other _ Hname) as [Hw Hs].
    assert (Hfalsy : JS.truthy_opt (first_value fields name) = false)
      by (unfold first_value; by rewrite Hblank).
    split; [by rewrite text_fields_delete|].
    apply (handler_same_fields _ _ fields (delete name fields) files);
      try reflexivity; try done.
    + unfold drop_field. by rewrite Hbody.
    + by rewrite first_value_delete_ne.
    + by rewrite text_fields_delete, social_links_delete_ne.
  - intros id row rows Hm Hid Htruthy Hrow Hexists Hblank Hlinks Hfile.
    apply (handler_empty_mapping _ _ _ _ _ _ _ Hm Hbody Hid Htruthy Hrow Hexists); [|done].
    unfold social_links. rewrite Hlinks. f_equal.
    unfold text_fields, copy_text.
    by rewrite !Hblank by (unfold text_names; repeat constructor).
Qed.

(** *** The transient copy of the avatar *)

Lemma write_file_keeps f (d : gmap string string) path :
  is_Some (d !! path) → is_Some (write_file f d !! path).
Proof.
  intros Hsome. unfold write_file. destruct (decide (filepath f = path)) as [<-|Hne].
  - rewrite lookup_insert_eq. by eexists.
  - by rewrite lookup_insert_ne.
Qed.

Lemma write_files_keep fs (d : gmap string string) path :
  is_Some (d !! path) → is_Some (foldr write_file d fs !! path).
Proof. intros Hsome. induction fs as [|f fs IH]; [done|]. by apply write_file_keeps. Qed.

Lemma write_entry_keeps entry (d : gmap string string) path :
  is_Some (d !! path) → is_Some (write_entry entry d !! path).
Proof. destruct entry; [apply write_file_keeps | apply write_files_keep]. Qed.

Lemma write_entry_has entry f (d : gmap string string) :
  f ∈ entry_files entry → is_Some (write_entry entry d !! filepath f).
Proof.
  destruct entry as [g|fs]; cbn.
  - intros ->%list_elem_of_singleton. unfold write_file. rewrite lookup_insert_eq. by eexists.
  - induction fs as [|g fs IH]; intros Hin; [by apply elem_of_nil in Hin|].
    apply elem_of_cons in Hin as [<-|Hin]; cbn.
    + unfold write_file at 1. rewrite lookup_insert_eq. by eexists.
    + by apply write_file_keeps, IH.
Qed.

(** Form decoding leaves a copy of every file part on the disk. *)
Lemma decoded_has_file (files : Files) key entry f w :
  files !! key = Some entry → f ∈ entry_files entry →
  is_Some (disk (decoded files w) !! filepath f).
Proof.
  unfold decoded. cbn [disk set_disk]. revert key entry f.
  apply (map_fold_weak_ind
           (λ (d : gmap string string) (m : Files),
              ∀ key entry f, m !! key = Some entry → f ∈ entry_files entry →
                             is_Some (d !! filepath f))).
  - intros key entry f Hlook. by rewrite lookup_empty in Hlook.
  - intros i x m d _ IH key entry f Hlook Hin.
    destruct (decide (i = key)) as [->|Hne].
    + rewrite lookup_insert_eq in Hlook. injection Hlook as ->. by apply write_entry_has.
    + rewrite lookup_insert_ne in Hlook by done.
      apply write_entry_keeps. by apply (IH key entry f).
Qed.

Lemma first_file_in entry f : first_file entry = Some f → f ∈ entry_files entry.
Proof.
  destruct entry as [g|[|g fs]]; cbn; intros [= ->]; apply list_elem_of_here.
Qed.

(** A rejected upload: the response is 500 and the disk is as it was. *)
Lemma avatar_upload_rejected (files : Files) u entry f buf e w :
  files !! "avatar" = Some entry → first_file entry = Some f →
  disk w !! filepath f = Some buf → upload_answer env buf = inl e →
  avatar_upload env files u w
  = (inr (inl (mkResponse 500 (ErrorBody "Failed to upload avatar"))),
     log_console "Upload error:" e (log_upload "user_avatars" buf w)).
Proof.
  intros Hentry Hfirst Hdisk Hanswer.
  unfold avatar_upload. rewrite Hentry, Hfirst.
  unfold try_catch at 1, bind at 1, uploadImage, bind at 1, try_catch at 1, readFileSync.
  rewrite Hdisk. unfold upload_stream. rewrite Hanswer. reflexivity.
Qed.

(** An accepted upload: the avatar is set and the transient copy removed. *)
Lemma avatar_upload_accepted (files : Files) u entry f buf url w :
  files !! "avatar" = Some entry → first_file entry = Some f →
  disk w !! filepath f = Some buf → upload_answer env buf = inr url →
  avatar_upload env files u w
  = (inr (inr (set_avatar (Some url) u)),
     set_disk (delete (filepath f) (disk w)) (log_upload "user_avatars" buf w)).
Proof.
  intros Hentry Hfirst Hdisk Hanswer.
  unfold avatar_upload. rewrite Hentry, Hfirst.
  unfold try_catch at 1, bind at 1, uploadImage, bind at 1, try_catch at 1, readFileSync.
  rewrite Hdisk. unfold upload_stream. rewrite Hanswer.
  unfold bind, unlinkSync. cbn [disk log_upload]. rewrite Hdisk. reflexivity.
Qed.

(** Whenever the remote store rejects the avatar, the handler answers 500
    [Failed to upload avatar] and the transient copy is still on the disk. *)
Lemma rejected_upload_leaves_file req fields files id row rows u entry f w :
  allowed req → body req = inr (fields, files) →
  resolve_wallet req fields = Some id → JS.truthy id = true →
  pool_answer env select_exists [id] = inr (row :: rows) →
  sql_truthy (row !! "exists") = true →
  social_links env fields (text_fields fields) = inr u →
  files !! "avatar" = Some entry → first_file entry = Some f →
  (∀ buf url, upload_answer env buf ≠ inr url) →
  (handler env req w).1 = inr (mkResponse 500 (ErrorBody "Failed to upload avatar"))
  ∧ is_Some (disk (handler env req w).2 !! filepath f).
Proof.
  intros Hm Hbody Hid Htruthy Hrow Hexists Hsocial Hentry Hfirst Hdown.
  destruct (decoded_has_file files "avatar" entry f w Hentry (first_file_in _ _ Hfirst))
    as [buf Hbuf].
  destruct (upload_answer env buf) as [e|url] eqn:Hanswer.
  2: { by destruct (Hdown buf url). }
  rewrite (handler_after_checks _ _ _ _ _ _ _ Hm Hbody Hid Htruthy Hrow Hexists).
  unfold try_catch, build_and_persist. rewrite Hsocial. unfold bind.
  rewrite (avatar_upload_rejected files u entry f buf e
             (log_query select_exists [id] (decoded files w)) Hentry Hfirst Hbuf Hanswer).
  cbn. split; [reflexivity|]. by eexists.
Qed.

(** The emptiness check, the update and the outer [catch] leave the disk
    alone. *)
Lemma persist_disk wallet u w :
  disk (try_catch (persist env wallet u) on_failure w).2 = disk w.
Proof.
  unfold try_catch, persist. destruct (Z.eqb _ _); [reflexivity|].
  unfold bind, updateUser, bind, pool_query.
  destruct (pool_answer env _ _); reflexivity.
Qed.

(** Whenever the remote store accepts the avatar, the transient copy is gone
    when the handler returns. *)
Lemma accepted_upload_removes_file req fields files id row rows u entry f w :
  allowed req → body req = inr (fields, files) →
  resolve_wallet req fields = Some id → JS.truthy id = true →
  pool_answer env select_exists [id] = inr (row :: rows) →
  sql_truthy (row !! "exists") = true →
  social_links env fields (text_fields fields) = inr u →
  files !! "avatar" = Some entry → first_file entry = Some f →
  (∀ buf, ∃ url, upload_answer env buf = inr url) →
  disk (handler env req w).2 !! filepath f = None.
Proof.
  intros Hm Hbody Hid Htruthy Hrow Hexists Hsocial Hentry Hfirst Hup.
  destruct (decoded_has_file files "avatar" entry f w Hentry (first_file_in _ _ Hfirst))
    as [buf Hbuf].
  destruct (Hup buf) as [url Hanswer].
  rewrite (handler_after_checks _ _ _ _ _ _ _ Hm Hbody Hid Htruthy Hrow Hexists).
  unfold build_and_persist. rewrite Hsocial.
  unfold try_catch at 1, bind at 1.
  rewrite (avatar_upload_accepted files u entry f buf url
             (log_query select_exists [id] (decoded files w)) Hentry Hfirst Hbuf Hanswer).
  match goal with
  | |- disk (match ?m ?w1 with _ => _ end).2 !! _ = None =>
      change (disk (try_catch m on_failure w1).2 !! filepath f = None)
  end.
  rewrite persist_disk. apply lookup_delete_eq.
Qed.

End Handler.

Lemma identity_resolution_witness :
  allowed Sample.three_sources_request
  ∧ (∃ later, queries (handler Sample.env0 Sample.three_sources_request Sample.world0).2
              = (select_exists, ["0xq"]) :: later)
  ∧ allowed Sample.anonymous_request
  ∧ handler Sample.env0 Sample.anonymous_request Sample.world0
    = (inr (mkResponse 400 (ErrorBody "Wallet address is required")), Sample.world0).
Proof.
  assert (H1 : allowed Sample.three_sources_request) by (left; reflexivity).
  assert (H2 : allowed Sample.anonymous_request) by (right; reflexivity).
  split; [exact H1|]. split; [|split; [exact H2|]].
  - apply (proj1 (identity_resolution Sample.env0 Sample.three_sources_request
                    _ _ Sample.world0 H1 eq_refl) "0xq").
    reflexivity.
  - apply (proj1 (proj2 (identity_resolution Sample.env0 Sample.anonymous_request
                           _ _ Sample.world0 H2 eq_refl))).
    reflexivity.
Defined.

(** C2, as stated, fails: a header that contains ["Bearer "] after other
    text has no leading prefix to strip, yet the handler removes the
    occurrence and looks up the shortened identity. *)
Lemma embedded_bearer_is_removed :
  allowed Sample.embedded_bearer_request
  ∧ identity_by_priority strip_leading_bearer
      (query_wallet Sample.embedded_bearer_request)
      (authorization Sample.embedded_bearer_request)
      (first_value ∅ "wallet")
    = Some "Token Bearer abc"
  ∧ queries (handler Sample.env0 Sample.embedded_bearer_request Sample.world0).2
    = [(select_exists, ["Token abc"])].
Proof. split; [left; reflexivity|]. split; reflexivity. Qed.

Lemma empty_mapping_rejected_witness :
  allowed Sample.empty_request
  ∧ handler Sample.env0 Sample.empty_request Sample.world0
    = (inr (mkResponse 400 (ErrorBody "No update data provided")),
       log_query select_exists ["0xabc"] Sample.world0)
  ∧ queries (handler Sample.env0 Sample.empty_request Sample.world0).2
    = [(select_exists, ["0xabc"])].
Proof.
  assert (H : allowed Sample.empty_request) by (left; reflexivity).
  split; [exact H|].
  exact (empty_mapping_rejected Sample.env0 Sample.empty_request ∅ ∅ "0xabc"
           {[ "exists" := VBool true ]} [] Sample.world0 H
           eq_refl eq_refl eq_refl eq_refl eq_refl eq_refl eq_refl).
Defined.

(** C6, as stated, fails: a request with nothing to update is answered 400
    [No update data provided] only after the existence query has been sent to
    the backend. *)
Lemma empty_request_queries_backend :
  (handler Sample.env0 Sample.empty_request Sample.world0).1
  = inr (mkResponse 400 (ErrorBody "No update data provided"))
  ∧ queries Sample.world0 = []
  ∧ queries (handler Sample.env0 Sample.empty_request Sample.world0).2
    = [("SELECT EXISTS(SELECT 1 FROM users WHERE wallet = $1)", ["0xabc"])].
Proof. repeat split; reflexivity. Qed.

Lemma social_links_decoding_witness :
  allowed Sample.broken_links_request
  ∧ JSON_parse Sample.env0 "[{oops" = None
  ∧ handler Sample.env0 Sample.broken_links_request Sample.world0
    = (inr (mkResponse 400 (ErrorBody "Invalid social links format")),
       log_query select_exists ["0xabc"] Sample.world0)
  ∧ allowed Sample.object_links_request
  ∧ JSON_parse Sample.env0 "{}" = Some (JObject [])
  ∧ handler Sample.env0 Sample.object_links_request Sample.world0
    = handler Sample.env0 (drop_field "socialLinks" Sample.object_links_request) Sample.world0.
Proof.
  assert (H1 : allowed Sample.broken_links_request) by (left; reflexivity).
  assert (H2 : allowed Sample.object_links_request) by (left; reflexivity).
  split; [exact H1|]. split; [reflexivity|]. split; [|split; [exact H2|split; [reflexivity|]]].
  - apply (proj1 (social_links_decoding Sample.env0 Sample.broken_links_request
                    {[ "username" := ["nova"]; "socialLinks" := ["[{oops"] ]} ∅ "0xabc"
                    {[ "exists" := VBool true ]} [] "[{oops" Sample.world0
                    H1 eq_refl eq_refl eq_refl eq_refl eq_refl eq_refl eq_refl)).
    reflexivity.
  - apply (proj2 (social_links_decoding Sample.env0 Sample.object_links_request
                    {[ "username" := ["nova"]; "socialLinks" := ["{}"] ]} ∅ "0xabc"
                    {[ "exists" := VBool true ]} [] "{}" Sample.world0
                    H2 eq_refl eq_refl eq_refl eq_refl eq_refl eq_refl eq_refl)
             (JObject [])); reflexivity.
Defined.

(** C4, as stated, fails: a [socialLinks] text that decodes to an object is
    not rejected; the field is skipped and the update goes through. *)
Lemma object_links_are_ignored :
  allowed Sample.object_links_request
  ∧ JSON_parse Sample.env0 "{}" = Some (JObject [])
  ∧ isArray (JObject []) = false
  ∧ handler Sample.env0 Sample.object_links_request Sample.world0
    = (inr (mkResponse 200
              (UserBody "User updated successfully" (Some {[ "wallet" := VText "0xabc" ]}))),
       log_query (query ["username = $2"; "updated_at = CURRENT_TIMESTAMP"]) ["0xabc"; "nova"]
         (log_query select_exists ["0xabc"] Sample.world0)).
Proof. split; [left; reflexivity|]. repeat split; reflexivity. Qed.

Lemma blank_text_field_is_absent_witness :
  text_fields {[ "username" := [EmptyString]; "bio" := [EmptyString] ]} = emptyUserData
  ∧ handler Sample.env0 Sample.blank_request Sample.world0
    = handler Sample.env0 (drop_field "username" Sample.blank_request) Sample.world0
  ∧ handler Sample.env0 Sample.blank_request Sample.world0
    = (inr (mkResponse 400 (ErrorBody "No update data provided")),
       log_query select_exists ["0xabc"] Sample.world0).
Proof.
  pose proof (blank_text_field_is_absent Sample.env0 Sample.blank_request
                {[ "username" := [EmptyString]; "bio" := [EmptyString] ]} ∅ Sample.world0
                eq_refl) as (Habsent & _ & Hempty).
  split; [reflexivity|]. split.
  - apply (Habsent "username" []); [apply list_elem_of_here | reflexivity].
  - refine (Hempty "0xabc" {[ "exists" := VBool true ]} [] _ eq_refl eq_refl eq_refl eq_refl
              _ eq_refl eq_refl).
    + right; reflexivity.
    + intros name Hin. unfold text_names in Hin.
      repeat (apply elem_of_cons in Hin as [->|Hin]; [reflexivity|]).
      by apply elem_of_nil in Hin.
Defined.

(** C9, as stated, fails in its third part: a request that supplies only
    an empty text field and no avatar is not always answered 400 [No update
    data provided].  Without an identity it is answered 400 [Wallet address
    is required], and for a wallet the backend does not know it is answered
    404, both before the fields are looked at. *)
Lemma blank_fields_meet_earlier_checks :
  body Scenario.blank_anonymous_request = inr ({[ "username" := [EmptyString] ]}, ∅)
  ∧ handler Sample.env0 Scenario.blank_anonymous_request Sample.world0
    = (inr (mkResponse 400 (ErrorBody "Wallet address is required")), Sample.world0)
  ∧ body Scenario.blank_stranger_request = inr ({[ "username" := [EmptyString] ]}, ∅)
  ∧ handler Sample.env0 Scenario.blank_stranger_request Sample.world0
    = (inr (mkResponse 404 (ErrorBody "User not found")),
       log_query select_exists ["0x000"] Sample.world0).
Proof. repeat split; reflexivity. Qed.

(** C5.  The claim fails on the code: when the remote store rejects the
    avatar, the handler answers 500 [Failed to upload avatar] and returns with
    the transient copy left on the disk; the copy is removed only when the
    upload succeeds. *)
Theorem rejected_upload_leaks_file :
  let down := Sample.env ["0xabc"] Sample.cloud_down in
  let up := Sample.env ["0xabc"] Sample.cloud_ok in
  (handler down Sample.avatar_request Sample.world0).1
  = inr (mkResponse 500 (ErrorBody "Failed to upload avatar"))
  ∧ disk (handler down Sample.avatar_request Sample.world0).2 !! "/tmp/9f2c1a7e.png"
    = Some "PNG-bytes"
  ∧ uploads (handler down Sample.avatar_request Sample.world0).2
    = [("user_avatars", "PNG-bytes")]
  ∧ (handler up Sample.avatar_request Sample.world0).1
    = inr (mkResponse 200
             (UserBody "User updated successfully" (Some {[ "wallet" := VText "0xabc" ]})))
  ∧ disk (handler up Sample.avatar_request Sample.world0).2 !! "/tmp/9f2c1a7e.png" = None.
Proof. repeat split; reflexivity. Qed.

(** *** The handler on whole requests *)

Example update_name_and_bio :
  handler Sample.env0 Sample.nova_bio_request Sample.world0
  = (inr (mkResponse 200
            (UserBody "User updated successfully" (Some {[ "wallet" := VText "0xabc" ]}))),
     log_query
       (query ["username = $2"; "bio = $3"; "updated_at = CURRENT_TIMESTAMP"])
       ["0xabc"; "nova"; "hi"]
       (log_query select_exists ["0xabc"] Sample.world0)).
Proof. reflexivity. Qed.

Example wrong_method :
  handler Sample.env0 Sample.get_request Sample.world0
  = (inr (mkResponse 405 (ErrorBody "Method not allowed")), Sample.world0).
Proof. reflexivity. Qed.

Example unknown_wallet :
  handler Sample.env0 Sample.stranger_request Sample.world0
  = (inr (mkResponse 404 (ErrorBody "User not found")),
     log_query select_exists ["0x000"] Sample.world0).
Proof. reflexivity. Qed.

(** ** Every run of the handler *)

Section Runs.

Context (env : Env).

Lemma guard_cases req :
  (negb (String.eqb (method req) "PUT") && negb (String.eqb (method req) "PATCH") = true
   ∧ ¬ allowed req)
  ∨ allowed req.
Proof.
  unfold allowed.
  destruct (String.eqb (method req) "PUT") eqn:Hput;
    [right; left; by apply String.eqb_eq|].
  destruct (String.eqb (method req) "PATCH") eqn:Hpatch;
    [right; right; by apply String.eqb_eq|].
  left. split; [done|].
  apply String.eqb_neq in Hput, Hpatch. by intros [?|?].
Qed.

Lemma social_links_response fields u r :
  social_links env fields u = inl r →
  r = mkResponse 400 (ErrorBody "Invalid social links format").
Proof.
  unfold social_links. destruct (JS.truthy_opt _); [|done].
  destruct (JSON_parse env _) as [[]|]; congruence.
Qed.

(** The emptiness check and the update, under the outer [catch]. *)
Lemma persist_run id u w :
  try_catch (persist env id u) on_failure w
  = if Z.eqb (keys_length u) 0
    then (inr (mkResponse 400 (ErrorBody "No update data provided")), w)
    else match pool_answer env (query (setClauses (sqlParts env id u)))
                 (values (sqlParts env id u)) with
         | inl e =>
             (inr failed_update,
              log_console "Update error:" e
                (log_query (query (setClauses (sqlParts env id u)))
                   (values (sqlParts env id u)) w))
         | inr rows =>
             (inr (mkResponse 200 (UserBody "User updated successfully" (head rows))),
              log_query (query (setClauses (sqlParts env id u)))
                (values (sqlParts env id u)) w)
         end.
Proof.
  unfold try_catch, persist. destruct (Z.eqb _ _); [reflexivity|].
  unfold bind, updateUser, bind, pool_query.
  destruct (pool_answer env _ _); reflexivity.
Qed.

Lemma persist_exit req w fields files id u u' w2 :
  checked env req fields files id →
  social_links env fields (text_fields fields) = inr u →
  avatar_done env files u (after_checks files id w) u' w2 →
  ∃ r w', try_catch (persist env id u') on_failure w2 = (inr r, w') ∧ Exit env req w r w'.
Proof.
  intros Hchecked Hsocial Hdone. rewrite persist_run.
  destruct (Z.eqb (keys_length u') 0) eqn:Hkeys.
  - eexists _, _. split; [reflexivity|].
    apply Z.eqb_eq in Hkeys. by eapply exit_empty.
  - apply Z.eqb_neq in Hkeys.
    destruct (pool_answer env _ _) as [e|rows] eqn:Hanswer;
      eexists _, _; (split; [reflexivity|]).
    + by eapply exit_update_failed.
    + by eapply exit_updated.
Qed.

(** Every run of [handler] ends in a response, by one of the ways out. *)
Lemma handler_exit req w :
  ∃ r w', handler env req w = (inr r, w') ∧ Exit env req w r w'.
Proof.
  destruct (guard_cases req) as [[Hguard Hnot]|Hm].
  { eexists _, _. split; [|by apply exit_method].
    unfold handler. by rewrite Hguard. }
  destruct (body req) as [e|[fields files]] eqn:Hbody.
  { eexists _, _. split; [|by eapply exit_body].
    unfold handler. rewrite (guard_allowed _ Hm).
    unfold try_catch, bind, parseFormData. by rewrite Hbody. }
  destruct (JS.truthy_opt (resolve_wallet req fields)) eqn:Hwallet.
  2: { eexists _, _.
       split; [exact (handler_no_identity env req fields files w Hm Hbody Hwallet)|].
       by eapply exit_identity. }
  destruct (resolve_wallet req fields) as [id|] eqn:Hid; [|done].
  cbn in Hwallet.
  destruct (pool_answer env select_exists [id]) as [e|[|row rows]] eqn:Hrow.
  1-2: eexists _, _; split;
    [rewrite (handler_identified _ _ _ _ _ _ Hm Hbody Hid Hwallet);
     unfold try_catch, bind at 1, checkUserExists, bind at 1, pool_query;
     rewrite Hrow; reflexivity|].
  { by eapply exit_backend. }
  { by eapply exit_no_row. }
  destruct (sql_truthy (row !! "exists")) eqn:Hexists.
  2: { eexists _, _. split; [|by eapply exit_unknown].
       rewrite (handler_identified _ _ _ _ _ _ Hm Hbody Hid Hwallet).
       unfold try_catch, bind at 1, checkUserExists, bind at 1, pool_query.
       rewrite Hrow. unfold ret at 1. rewrite Hexists. reflexivity. }
  assert (Hchecked : checked env req fields files id).
  { repeat split; try done. by exists row, rows. }
  rewrite (handler_after_checks _ _ _ _ _ _ _ _ Hm Hbody Hid Hwallet Hrow Hexists).
  fold (after_checks files id w).
  unfold build_and_persist.
  destruct (social_links env fields (text_fields fields)) as [r|u] eqn:Hsocial.
  { pose proof (social_links_response _ _ _ Hsocial) as ->.
    eexists _, _. split; [reflexivity|]. by eapply exit_links. }
  destruct (files !! "avatar") as [entry|] eqn:Hentry.
  2: { unfold try_catch at 1, bind at 1, avatar_upload. rewrite Hentry.
       unfold ret at 1.
       change (∃ r w', try_catch (persist env id u) on_failure (after_checks files id w)
                       = (inr r, w') ∧ Exit env req w r w').
       eapply persist_exit; [done..|]. by apply avatar_absent. }
  destruct (first_file entry) as [f|] eqn:Hfirst.
  2: { eexists _, _. split; [|by eapply exit_no_file].
       unfold try_catch at 1, bind at 1, avatar_upload. rewrite Hentry, Hfirst.
       reflexivity. }
  destruct (decoded_has_file files "avatar" entry f w Hentry (first_file_in _ _ Hfirst))
    as [buf Hbuf].
  change (disk (after_checks files id w) !! filepath f = Some buf) in Hbuf.
  destruct (upload_answer env buf) as [e|url] eqn:Hanswer.
  - eexists _, _. split; [|by eapply exit_upload].
    unfold try_catch at 1, bind at 1.
    by rewrite (avatar_upload_rejected _ files u entry f buf e _ Hentry Hfirst Hbuf Hanswer).
  - unfold try_catch at 1, bind at 1.
    rewrite (avatar_upload_accepted _ files u entry f buf url _ Hentry Hfirst Hbuf Hanswer).
    match goal with
    | |- ∃ r w', match ?m ?w2 with _ => _ end = _ ∧ _ =>
        change (∃ r w', try_catch m on_failure w2 = (inr r, w') ∧ Exit env req w r w')
    end.
    eapply persist_exit; [done..|]. by eapply avatar_stored.
Qed.

Lemma avatar_done_logs files u w1 u' w2 :
  avatar_done env files u w1 u' w2 →
  queries w2 = queries w1 ∧ console w2 = console w1 ∧ destroyed w2 = destroyed w1.
Proof. by intros []. Qed.


(** X2.  A request whose method is neither PUT nor PATCH is answered 405
    before anything is read or done: the world is left as it was.  No other
    request is answered 405. *)
Theorem method_is_checked_first (req : Request) (w : World) :
  (¬ allowed req →
     handler env req w = (inr (mkResponse 405 (ErrorBody "Method not allowed")), w))
  ∧ (allowed req → ∀ r, (handler env req w).1 = inr r → status r ≠ 405).
Proof.
  destruct (handler_exit req w) as (r & w' & Hrun & Hexit). rewrite Hrun.
  split.
  - intros Hnot. destruct Hexit; try done; unfold checked in *; naive_solver.
  - intros Hm r' [= <-]. destruct Hexit; done.
Qed.

(** X3.  A run sends at most two queries, in this order: the existence
    check for the resolved wallet and, only when the backend confirmed that
    wallet, one UPDATE bound to the same wallet, built from a mapping that is
    not empty. *)
Theorem queries_of_a_run (req : Request) (w : World) :
  queries (handler env req w).2 = queries w
  ∨ (∃ id, queries (handler env req w).2 = (queries w ++ [(select_exists, [id])])%list)
  ∨ (∃ fields files id u,
       checked env req fields files id
       ∧ keys_length u ≠ 0
       ∧ queries (handler env req w).2
         = (queries w ++ [(select_exists, [id]);
                          (query (setClauses (sqlParts env id u)),
                           id :: (supplied env u).*2)])%list).
Proof.
  destruct (handler_exit req w) as (r & w' & -> & Hexit).
  destruct Hexit as [| | | | | | | | |? ? ? ? ? ? ? ? Hdone|? ? ? ? ? ? ? ? ? Hdone|? ? ? ? ? ? ? ? ? Hdone];
    try (by left); try (right; left; by eexists);
    destruct (avatar_done_logs _ _ _ _ _ Hdone) as (Hq & _ & _).
  - right; left. exists id. cbn [snd]. by rewrite Hq.
  - right; right. exists fields, files, id, u'. split; [done|]. split; [done|].
    cbn [snd queries log_console log_query]. rewrite Hq, sqlParts_values.
    cbn [queries after_checks log_query]. by rewrite <- app_assoc.
  - right; right. exists fields, files, id, u'. split; [done|]. split; [done|].
    cbn [snd queries log_query]. rewrite Hq, sqlParts_values.
    cbn [queries after_checks log_query]. by rewrite <- app_assoc.
Qed.


(** X5.  The handler never asks the remote store to delete anything, not
    even when the update fails after the avatar was uploaded. *)
Theorem handler_never_destroys (req : Request) (w : World) :
  destroyed (handler env req w).2 = destroyed w.
Proof.
  destruct (handler_exit req w) as (r & w' & -> & Hexit).
  destruct Hexit as [| | | | | | | | |? ? ? ? ? ? ? ? Hdone|? ? ? ? ? ? ? ? ? Hdone|? ? ? ? ? ? ? ? ? Hdone];
    try done; destruct (avatar_done_logs _ _ _ _ _ Hdone) as (_ & _ & Hd);
    cbn [snd destroyed log_console log_query]; by rewrite Hd.
Qed.

(** X6.  A run uploads at most once: either nothing is sent to the remote
    store, or exactly the bytes found at the path of the first avatar file
    are sent, to the folder [user_avatars].  Without an avatar part nothing
    is sent. *)
Theorem uploads_of_a_run (req : Request) (w : World) :
  (uploads (handler env req w).2 = uploads w
   ∨ ∃ fields files entry f buf,
       body req = inr (fields, files)
       ∧ files !! "avatar" = Some entry ∧ first_file entry = Some f
       ∧ disk (decoded files w) !! filepath f = Some buf
       ∧ uploads (handler env req w).2 = (uploads w ++ [("user_avatars", buf)])%list)
  ∧ (∀ fields files, body req = inr (fields, files) → files !! "avatar" = None →
       uploads (handler env req w).2 = uploads w).
Proof.
  destruct (handler_exit req w) as (r & w' & -> & Hexit).
  assert (Hdone : ∀ fields files id u u' w2,
            checked env req fields files id →
            avatar_done env files u (after_checks files id w) u' w2 →
            (uploads w2 = uploads w ∧ files !! "avatar" = None)
            ∨ ∃ entry f buf,
                body req = inr (fields, files)
                ∧ files !! "avatar" = Some entry ∧ first_file entry = Some f
                ∧ disk (decoded files w) !! filepath f = Some buf
                ∧ uploads w2 = (uploads w ++ [("user_avatars", buf)])%list).
  { intros fields files id u u' w2 (_ & Hbody & _) [Hnone|entry f buf url Hentry Hfirst Hbuf _].
    - by left.
    - right. by exists entry, f, buf. }
  split.
  - destruct Hexit as [| | | | | | | |fields files id u entry f buf e Hc _ Hentry Hfirst Hbuf _
                        |fields files id u u' w2 Hc _ Hd|fields files id u u' w2 e Hc _ Hd
                        |fields files id u u' w2 rows Hc _ Hd];
      try (by left).
    + right. destruct Hc as (_ & Hbody & _). by exists fields, files, entry, f, buf.
    + destruct (Hdone _ _ _ _ _ _ Hc Hd) as [[Hu _]|(entry & f & buf & ?)];
        [by left | right; by exists fields, files, entry, f, buf].
    + destruct (Hdone _ _ _ _ _ _ Hc Hd) as [[Hu _]|(entry & f & buf & ?)];
        [by left | right; by exists fields, files, entry, f, buf].
    + destruct (Hdone _ _ _ _ _ _ Hc Hd) as [[Hu _]|(entry & f & buf & ?)];
        [by left | right; by exists fields, files, entry, f, buf].
  - intros fields0 files0 Hbody0 Hnone.
    destruct Hexit as [| | | | | | | |fields files id u entry f buf e Hc _ Hentry Hfirst Hbuf _
                        |fields files id u u' w2 Hc _ Hd|fields files id u u' w2 e Hc _ Hd
                        |fields files id u u' w2 rows Hc _ Hd];
      try done.
    + destruct Hc as (_ & Hbody & _). congruence.
    + destruct (Hdone _ _ _ _ _ _ Hc Hd) as [[Hu _]|(entry & f & buf & Hbody & ? & _)];
        [done | congruence].
    + destruct (Hdone _ _ _ _ _ _ Hc Hd) as [[Hu _]|(entry & f & buf & Hbody & ? & _)];
        [done | congruence].
    + destruct (Hdone _ _ _ _ _ _ Hc Hd) as [[Hu _]|(entry & f & buf & Hbody & ? & _)];
        [done | congruence].
Qed.

(** X7.  Of the files that form decoding wrote, only the first avatar file
    can be gone when the handler returns: every other path holds what it held
    after decoding, so further avatar files and files sent under other field
    names are never removed. *)
Theorem disk_of_a_run (req : Request) (fields : Fields) (files : Files) (w : World) :
  allowed req → body req = inr (fields, files) →
  (∀ path,
     (∀ entry f, files !! "avatar" = Some entry → first_file entry = Some f →
                 filepath f ≠ path) →
     disk (handler env req w).2 !! path = disk (decoded files w) !! path)
  ∧ (∀ key entry g,
       files !! key = Some entry → g ∈ entry_files entry →
       (∀ entry' f, files !! "avatar" = Some entry' → first_file entry' = Some f →
                    filepath f ≠ filepath g) →
       is_Some (disk (handler env req w).2 !! filepath g)).
Proof.
  intros Hm Hbody.
  assert (Hpath : ∀ path,
            (∀ entry f, files !! "avatar" = Some entry → first_file entry = Some f →
                        filepath f ≠ path) →
            disk (handler env req w).2 !! path = disk (decoded files w) !! path).
  { intros path Hother.
    destruct (handler_exit req w) as (r & w' & -> & Hexit).
    assert (Hdone : ∀ fields' files' id u u' w2,
              checked env req fields' files' id →
              avatar_done env files' u (after_checks files' id w) u' w2 →
              disk w2 !! path = disk (decoded files w) !! path).
    { intros fields' files' id u u' w2 (_ & Hbody' & _) Hd.
      rewrite Hbody in Hbody'. injection Hbody' as <- <-.
      destruct Hd as [Hnone|entry f buf url Hentry Hfirst Hbuf _]; [done|].
      cbn [disk set_disk]. rewrite lookup_delete_ne by eauto. done. }
    destruct Hexit as [| | | | | | | | |fields' files' id u u' w2 Hc _ Hd
                        |fields' files' id u u' w2 e Hc _ Hd
                        |fields' files' id u u' w2 rows Hc _ Hd];
      try done; try congruence;
      try (match goal with H : checked _ _ _ _ _ |- _ =>
             destruct H as (_ & Hbody' & _); rewrite Hbody in Hbody';
             by injection Hbody' as <- <- end);
      try (match goal with H : body req = inr (_, ?b) |- _ =>
             assert (files = b) as <- by congruence; done end);
      try (by apply (Hdone _ _ _ _ _ _ Hc Hd)). }
  split; [exact Hpath|].
  intros key entry g Hkey Hin Hother. rewrite (Hpath _ Hother).
  by apply (decoded_has_file files key entry g w).
Qed.

(** The handler from the avatar step on. *)
Lemma handler_persist req fields files id u u' w w2 :
  checked env req fields files id →
  social_links env fields (text_fields fields) = inr u →
  avatar_done env files u (after_checks files id w) u' w2 →
  handler env req w = try_catch (persist env id u') on_failure w2.
Proof.
  intros (Hm & Hbody & Hid & Htruthy & row & rows & Hrow & Hexists) Hsocial Hdone.
  rewrite (handler_after_checks _ _ _ _ _ _ _ _ Hm Hbody Hid Htruthy Hrow Hexists).
  fold (after_checks files id w). unfold build_and_persist. rewrite Hsocial.
  unfold try_catch at 1, bind at 1.
  destruct Hdone as [Hnone|entry f buf url Hentry Hfirst Hbuf Hanswer].
  - unfold avatar_upload. rewrite Hnone. reflexivity.
  - rewrite (avatar_upload_accepted _ files u entry f buf url _ Hentry Hfirst Hbuf Hanswer).
    reflexivity.
Qed.

Lemma keys_length_avatar url u : keys_length (set_avatar (Some url) u) ≠ 0.
Proof.
  unfold keys_length, count_key. cbn.
  destruct (username u), (email u), (bio u), (streamKey u), (socialLinks u); lia.
Qed.

(** X8.  When the backend says the wallet does not exist, the answer is 404
    [User not found]: the existence query is the only thing done, nothing is
    uploaded even if an avatar is attached, and every file that decoding
    wrote is still on the disk. *)
Theorem unknown_user_stops_the_run (req : Request) (fields : Fields) (files : Files)
    (id : string) (row : Row) (rows : list Row) (w : World) :
  allowed req → body req = inr (fields, files) →
  resolve_wallet req fields = Some id → JS.truthy id = true →
  pool_answer env select_exists [id] = inr (row :: rows) →
  sql_truthy (row !! "exists") = false →
  handler env req w
  = (inr (mkResponse 404 (ErrorBody "User not found")),
     log_query select_exists [id] (decoded files w))
  ∧ ∀ key entry f, files !! key = Some entry → f ∈ entry_files entry →
                   is_Some (disk (handler env req w).2 !! filepath f).
Proof.
  intros Hm Hbody Hid Htruthy Hrow Hexists.
  assert (Hrun : handler env req w
                 = (inr (mkResponse 404 (ErrorBody "User not found")),
                    log_query select_exists [id] (decoded files w))).
  { rewrite (handler_identified _ _ _ _ _ _ Hm Hbody Hid Htruthy).
    unfold try_catch, bind at 1, checkUserExists, bind at 1, pool_query.
    rewrite Hrow. unfold ret at 1. rewrite Hexists. reflexivity. }
  split; [exact Hrun|].
  intros key entry f Hkey Hin. rewrite Hrun.
  by apply (decoded_has_file files key entry f w).
Qed.

(** X9.  Without an avatar, a request that passes the checks with a mapping
    that is not empty sends one UPDATE for the resolved wallet and is answered
    200 with the first row the backend returns; when the backend returns no
    row the answer is still 200, with no user. *)
Theorem update_goes_through (req : Request) (fields : Fields) (files : Files)
    (id : string) (u : UserData) (rows : list Row) (w : World) :
  checked env req fields files id →
  social_links env fields (text_fields fields) = inr u →
  files !! "avatar" = None →
  keys_length u ≠ 0 →
  pool_answer env (query (setClauses (sqlParts env id u))) (id :: (supplied env u).*2)
  = inr rows →
  handler env req w
  = (inr (mkResponse 200 (UserBody "User updated successfully" (head rows))),
     log_query (query (setClauses (sqlParts env id u))) (id :: (supplied env u).*2)
       (log_query select_exists [id] (decoded files w))).
Proof.
  intros Hchecked Hsocial Hnone Hkeys Hanswer.
  rewrite (handler_persist req fields files id u u w _ Hchecked Hsocial
             (avatar_absent _ _ _ _ Hnone)).
  rewrite persist_run. apply Z.eqb_neq in Hkeys. rewrite Hkeys.
  rewrite sqlParts_values, Hanswer. reflexivity.
Qed.

(** X10.  With an avatar that the remote store accepts, the mapping is never
    empty: the transient copy is removed, and the UPDATE that follows binds
    the address returned by the store to the avatar column. *)
Theorem avatar_is_stored (req : Request) (fields : Fields) (files : Files)
    (id : string) (u : UserData) (entry : FileEntry) (f : File) (buf url : string)
    (rows : list Row) (w : World) :
  checked env req fields files id →
  social_links env fields (text_fields fields) = inr u →
  files !! "avatar" = Some entry → first_file entry = Some f →
  disk (decoded files w) !! filepath f = Some buf →
  upload_answer env buf = inr url →
  pool_answer env (query (setClauses (sqlParts env id (set_avatar (Some url) u))))
    (id :: (supplied env (set_avatar (Some url) u)).*2)
  = inr rows →
  handler env req w
  = (inr (mkResponse 200 (UserBody "User updated successfully" (head rows))),
     log_query (query (setClauses (sqlParts env id (set_avatar (Some url) u))))
       (id :: (supplied env (set_avatar (Some url) u)).*2)
       (set_disk (delete (filepath f) (disk (decoded files w)))
          (log_upload "user_avatars" buf
             (log_query select_exists [id] (decoded files w)))))
  ∧ ("avatar", url) ∈ supplied env (set_avatar (Some url) u).
Proof.
  intros Hchecked Hsocial Hentry Hfirst Hbuf Hup Hanswer. split.
  - rewrite (handler_persist req fields files id u _ w _ Hchecked Hsocial
               (avatar_stored _ _ _ (after_checks files id w) entry f buf url
                  Hentry Hfirst Hbuf Hup)).
    rewrite persist_run.
    pose proof (keys_length_avatar url u) as Hkeys. apply Z.eqb_neq in Hkeys.
    rewrite Hkeys, sqlParts_values, Hanswer. reflexivity.
  - unfold supplied. cbn [avatar set_avatar supplied_item].
    apply elem_of_app. right. apply elem_of_app. right.
    apply elem_of_app. left. apply list_elem_of_here.
Qed.

(** X11.  When the UPDATE is rejected after the avatar was uploaded, the
    answer is 500 [Failed to update user]; the asset stays in the remote
    store (it was uploaded and no delete is requested) and the transient copy
    is already gone. *)
Theorem failed_update_keeps_upload (req : Request) (fields : Fields) (files : Files)
    (id : string) (u : UserData) (entry : FileEntry) (f : File) (buf url e : string)
    (w : World) :
  checked env req fields files id →
  social_links env fields (text_fields fields) = inr u →
  files !! "avatar" = Some entry → first_file entry = Some f →
  disk (decoded files w) !! filepath f = Some buf →
  upload_answer env buf = inr url →
  pool_answer env (query (setClauses (sqlParts env id (set_avatar (Some url) u))))
    (id :: (supplied env (set_avatar (Some url) u)).*2)
  = inl e →
  (handler env req w).1 = inr (mkResponse 500 (ErrorBody "Failed to update user"))
  ∧ uploads (handler env req w).2 = (uploads w ++ [("user_avatars", buf)])%list
  ∧ destroyed (handler env req w).2 = destroyed w
  ∧ disk (handler env req w).2 !! filepath f = None.
Proof.
  intros Hchecked Hsocial Hentry Hfirst Hbuf Hup Hanswer.
  rewrite (handler_persist req fields files id u _ w _ Hchecked Hsocial
             (avatar_stored _ _ _ (after_checks files id w) entry f buf url
                Hentry Hfirst Hbuf Hup)).
  rewrite persist_run.
  pose proof (keys_length_avatar url u) as Hkeys. apply Z.eqb_neq in Hkeys.
  rewrite Hkeys, sqlParts_values, Hanswer.
  repeat split. cbn. apply lookup_delete_eq.
Qed.

(** X12.  Failures before the fields are looked at are all answered 500
    [Failed to update user] and logged: a body that cannot be decoded (nothing
    else happens), an existence query that the backend rejects, and an
    existence query answered with no row.  After the existence query nothing
    further is sent to the backend. *)
Theorem early_failures (req : Request) (w : World) :
  allowed req →
  (∀ e, body req = inl e →
     handler env req w = (inr failed_update, log_console "Update error:" e w))
  ∧ (∀ fields files id e,
       body req = inr (fields, files) →
       resolve_wallet req fields = Some id → JS.truthy id = true →
       pool_answer env select_exists [id] = inl e →
       handler env req w
       = (inr failed_update,
          log_console "Update error:" e (log_query select_exists [id] (decoded files w))))
  ∧ (∀ fields files id,
       body req = inr (fields, files) →
       resolve_wallet req fields = Some id → JS.truthy id = true →
       pool_answer env select_exists [id] = inr [] →
       (handler env req w).1 = inr failed_update
       ∧ queries (handler env req w).2 = (queries w ++ [(select_exists, [id])])%list).
Proof.
  intros Hm. split; [|split].
  - intros e Hbody. unfold handler. rewrite (guard_allowed _ Hm).
    unfold try_catch, bind, parseFormData. by rewrite Hbody.
  - intros fields files id e Hbody Hid Htruthy Hrow.
    rewrite (handler_identified _ _ _ _ _ _ Hm Hbody Hid Htruthy).
    unfold try_catch, bind at 1, checkUserExists, bind at 1, pool_query.
    by rewrite Hrow.
  - intros fields files id Hbody Hid Htruthy Hrow.
    rewrite (handler_identified _ _ _ _ _ _ Hm Hbody Hid Htruthy).
    unfold try_catch, bind at 1, checkUserExists, bind at 1, pool_query.
    by rewrite Hrow.
Qed.

(** X13.  The handler reads the form only through the first value of the
    fields wallet, username, email, bio, streamKey and socialLinks: further
    values of a repeated field and fields under any other name change
    nothing. *)
Theorem handler_reads_first_values (req1 req2 : Request) (fields1 fields2 : Fields)
    (files : Files) (w : World) :
  method req1 = method req2 → query_wallet req1 = query_wallet req2 →
  authorization req1 = authorization req2 →
  body req1 = inr (fields1, files) → body req2 = inr (fields2, files) →
  (∀ name, name ∈ form_names → first_value fields1 name = first_value fields2 name) →
  handler env req1 w = handler env req2 w.
Proof.
  intros Hm Hq Ha Hb1 Hb2 Hsame.
  assert (Hname : ∀ name, bool_decide (name ∈ form_names) = true →
                          first_value fields1 name = first_value fields2 name)
    by (intros name Hin; apply Hsame; by apply bool_decide_eq_true in Hin).
  apply (handler_same_fields env _ _ fields1 fields2 files); try done.
  - by apply Hname.
  - unfold social_links, text_fields, copy_text.
    by rewrite !(Hname "username"), !(Hname "email"), !(Hname "bio"),
      !(Hname "streamKey"), !(Hname "socialLinks").
Qed.

Lemma text_fields_rest (fields : Fields) :
  avatar (text_fields fields) = None ∧ socialLinks (text_fields fields) = None.
Proof.
  unfold text_fields, copy_text.
  by destruct (JS.truthy_opt (first_value fields "username")),
              (JS.truthy_opt (first_value fields "email")),
              (JS.truthy_opt (first_value fields "bio")),
              (JS.truthy_opt (first_value fields "streamKey")).
Qed.

Lemma supplied_with_links items u :
  socialLinks u = None →
  supplied env (set_socialLinks (Some items) u)
  = (supplied env u ++ [("socialLinks", JSON_stringify env items)])%list.
Proof.
  intros Hnone. unfold supplied. cbn [set_socialLinks username email avatar bio streamKey
                                      socialLinks]. rewrite Hnone.
  cbn [fmap option_fmap option_map supplied_item]. by rewrite !app_nil_r, <- !app_assoc.
Qed.

Lemma keys_length_links items u : keys_length (set_socialLinks (Some items) u) ≠ 0.
Proof.
  unfold keys_length, count_key. cbn.
  destruct (username u), (email u), (avatar u), (bio u), (streamKey u); lia.
Qed.

(** X14.  Social links that decode to an array are accepted whatever the
    array holds, the empty array included, and always count as a field to
    update.  What is bound to the socialLinks column, in the last slot, is the
    array serialized again, not the text that was submitted. *)
Theorem social_links_are_reencoded (req : Request) (fields : Fields) (files : Files)
    (id text : string) (items : list json) (rows : list Row) (w : World) :
  checked env req fields files id →
  first_value fields "socialLinks" = Some text → JS.truthy text = true →
  JSON_parse env text = Some (JArray items) →
  files !! "avatar" = None →
  let u := set_socialLinks (Some items) (text_fields fields) in
  pool_answer env (query (setClauses (sqlParts env id u)))
    (id :: (supplied env (text_fields fields)).*2 ++ [JSON_stringify env items])%list
  = inr rows →
  handler env req w
  = (inr (mkResponse 200 (UserBody "User updated successfully" (head rows))),
     log_query (query (setClauses (sqlParts env id u)))
       (id :: (supplied env (text_fields fields)).*2 ++ [JSON_stringify env items])%list
       (log_query select_exists [id] (decoded files w))).
Proof.
  intros Hchecked Hlinks Htext Hparse Hnone u Hanswer. subst u.
  assert (Hsocial : social_links env fields (text_fields fields)
                    = inr (set_socialLinks (Some items) (text_fields fields))).
  { unfold social_links. rewrite Hlinks. cbn [JS.truthy_opt default]. rewrite Htext.
    change (Datatypes.id text) with text. by rewrite Hparse. }
  rewrite (handler_persist req fields files id _ _ w _ Hchecked Hsocial
             (avatar_absent _ _ _ _ Hnone)).
  rewrite persist_run.
  pose proof (keys_length_links items (text_fields fields)) as Hkeys.
  apply Z.eqb_neq in Hkeys. rewrite Hkeys, sqlParts_values.
  rewrite supplied_with_links by apply text_fields_rest.
  rewrite fmap_app. cbn [fmap list_fmap snd].
  rewrite Hanswer. reflexivity.
Qed.

(** X15.  [uploadImage] fails with its own error, logged, and without
    contacting the remote store when the file cannot be read.  When the file
    is there, its bytes are sent once to the folder [user_avatars] and the
    answer of the store is handed on as it is: a rejection reaches the caller
    as the store's error.  The file itself is left in place either way. *)
Theorem uploadImage_outcomes (path : string) (w : World) :
  (disk w !! path = None →
     uploadImage env path w
     = (inl "Failed to upload image to Cloudinary",
        log_console "Error uploading to Cloudinary:" "ENOENT: no such file or directory" w))
  ∧ (∀ buf, disk w !! path = Some buf →
       uploadImage env path w = (upload_answer env buf, log_upload "user_avatars" buf w))
  ∧ disk (uploadImage env path w).2 = disk w.
Proof.
  unfold uploadImage, bind, try_catch, readFileSync.
  destruct (disk w !! path) as [buf|] eqn:Hdisk.
  - split; [done|]. split; [|by destruct (upload_answer env buf)].
    intros ? [= <-]. unfold upload_stream. by destruct (upload_answer env buf).
  - split; [done|]. split; [done|]. reflexivity.
Qed.

(** [deleteImage] on an address that yields a usable identifier. *)
Lemma deleteImage_valid url path pid w :
  URL_pathname env url = Some path →
  publicId_of_pathname path = Some pid → JS.truthy pid = true →
  deleteImage env url w
  = match destroy_answer env pid with
    | inl e =>
        (inl "Failed to delete image from Cloudinary",
         log_console "Error deleting from Cloudinary:" e (log_destroy pid w))
    | inr done => (inr done, log_destroy pid w)
    end.
Proof.
  intros Hpath Hid Htruthy. unfold deleteImage, try_catch, bind.
  rewrite (extract_of_pathname env _ _ _ Hpath), Hid. cbn [JS.truthy_opt].
  rewrite Htruthy. cbn [negb]. unfold uploader_destroy.
  change (default EmptyString (Some pid)) with pid.
  destruct (destroy_answer env pid); reflexivity.
Qed.

(** X16.  [deleteImage] either succeeds or fails with the one message
    [Failed to delete image from Cloudinary], whatever went wrong.  It asks
    the remote store to delete at most once, and only with a non-empty
    identifier.  A success logs nothing; every failure is logged, its cause
    last. *)
Theorem deleteImage_outcomes (url : string) (w : World) :
  ∃ called : list string,
    destroyed (deleteImage env url w).2 = (destroyed w ++ called)%list
    ∧ (length called ≤ 1)%nat
    ∧ (∀ pid, pid ∈ called → JS.truthy pid = true)
    ∧ ((deleteImage env url w).1 = inr tt
       ∨ (deleteImage env url w).1 = inl "Failed to delete image from Cloudinary")
    ∧ ((deleteImage env url w).1 = inr tt →
         length called = 1%nat ∧ console (deleteImage env url w).2 = console w)
    ∧ (∀ e, (deleteImage env url w).1 = inl e →
         ∃ earlier cause,
           console (deleteImage env url w).2
           = (console w ++ earlier ++ [("Error deleting from Cloudinary:", cause)])%list).
Proof.
  destruct (URL_pathname env url) as [path|] eqn:Hpath.
  - destruct (JS.truthy_opt (publicId_of_pathname path)) eqn:Htruthy.
    + destruct (publicId_of_pathname path) as [pid|] eqn:Hid; [|done].
      cbn in Htruthy. rewrite (deleteImage_valid _ _ _ _ Hpath Hid Htruthy).
      exists [pid].
      destruct (destroy_answer env pid) as [e|[]]; cbn;
        (split; [done|]); (split; [lia|]);
        (split; [by intros ? ->%list_elem_of_singleton|]).
      * split; [by right|]. split; [done|]. intros ? _. by exists [], e.
      * split; [by left|]. split; [done|]. done.
    + rewrite (deleteImage_invalid env _ _ _ Hpath Htruthy).
      exists []. cbn. rewrite app_nil_r. split; [done|]. split; [lia|].
      split; [intros pid Hin; by apply elem_of_nil in Hin|].
      split; [by right|]. split; [done|].
      intros e _. by exists [], "Invalid Cloudinary URL".
  - unfold deleteImage, try_catch, bind, extractPublicIdFromUrl. rewrite Hpath.
    exists []. cbn. rewrite app_nil_r. split; [done|]. split; [lia|].
    split; [intros pid Hin; by apply elem_of_nil in Hin|].
    split; [by right|]. split; [done|].
    intros e _. exists [("Error extracting public ID:", "Invalid URL")],
      "Invalid Cloudinary URL". by rewrite <- app_assoc.
Qed.

Lemma publicId_none_cases path :
  publicId_of_pathname path = None →
  ("upload" ∉ JS.split "/" path)
  ∨ ∃ pre rest, JS.split "/" path = (pre ++ "upload" :: rest)%list
                ∧ ("upload" ∉ pre) ∧ (length rest < 2)%nat.
Proof.
  intros Hnone.
  destruct (decide ("upload" ∈ JS.split "/" path)) as [Hin|Hnot]; [|by left].
  right. apply list_elem_of_split in Hin as (before & after & Hsplit).
  destruct (first_marker before after) as (pre & rest & Heq & Hpre & _ & _).
  rewrite Heq in Hsplit. exists pre, rest. split; [done|]. split; [done|].
  unfold publicId_of_pathname in Hnone. rewrite Hsplit in Hnone.
  unfold JS.findIndex in Hnone.
  rewrite findIndex_from_here in Hnone by (by apply not_upload || reflexivity).
  rewrite length_app in Hnone. cbn [length] in Hnone.
  replace (Z.eqb _ _) with false in Hnone by (symmetry; apply Z.eqb_neq; lia).
  cbn [orb] in Hnone.
  destruct (Z.geb _ _) eqn:Hge; [|done].
  rewrite Z.geb_leb in Hge. apply Z.leb_le in Hge. lia.
Qed.

(** X17.  [extractPublicIdFromUrl] never throws, and it answers [null] in
    exactly three situations: the address is not a valid URL, its path has no
    [upload] segment, or fewer than two segments follow the first [upload]
    segment.  Only the first situation leaves a trace, in the error log. *)
Theorem extract_null_cases (url : string) (w : World) :
  (∃ r, (extractPublicIdFromUrl env url w).1 = inr r)
  ∧ ((extractPublicIdFromUrl env url w).1 = inr None ↔
       match URL_pathname env url with
       | None => True
       | Some path =>
           ("upload" ∉ JS.split "/" path)
           ∨ ∃ pre rest, JS.split "/" path = (pre ++ "upload" :: rest)%list
                         ∧ ("upload" ∉ pre) ∧ (length rest < 2)%nat
       end)
  ∧ (∀ path, URL_pathname env url = Some path → (extractPublicIdFromUrl env url w).2 = w)
  ∧ (URL_pathname env url = None →
       (extractPublicIdFromUrl env url w).2
       = log_console "Error extracting public ID:" "Invalid URL" w).
Proof.
  unfold extractPublicIdFromUrl.
  destruct (URL_pathname env url) as [path|]; cbn.
  - split; [by eexists|]. split; [|by split].
    split.
    + intros [= Hnone]. by apply publicId_none_cases.
    + intros [Hnone|(pre & rest & Hsplit & Hpre & Hshort)]; f_equal.
      * by apply publicId_no_marker.
      * by apply (publicId_too_short _ _ _ Hsplit).
  - split; [by eexists|]. by repeat split.
Qed.

(** X18.  Placeholders and bound values always agree: with [n] values
    bound, the SET list reads exactly the slots 2, 3, ..., [n], each once and
    in this order, and [n] is one more than the number of supplied fields.
    With slot 1 of the WHERE clause, every value has its placeholder and
    every placeholder its value. *)
Theorem placeholders_match_values (wallet : string) (u : UserData) :
  let p := sqlParts env wallet u in
  Z.of_nat (length (values p)) = keys_length u + 1
  ∧ paramIndex p = Z.of_nat (length (values p)) + 1
  ∧ omap clause_slot (setClauses p)
    = (λ i : nat, Z.of_nat i + 2) <$> seq 0 (length (values p) - 1)
  ∧ length (setClauses p) = length (values p).
Proof. destruct u as [[?|] [?|] [?|] [?|] [?|] [?|]]; repeat split. Qed.

End Runs.

Lemma sample_checked (req : Request) (fields : Fields) (files : Files) :
  allowed req → body req = inr (fields, files) →
  resolve_wallet req fields = Some "0xabc" →
  checked Sample.env0 req fields files "0xabc".
Proof.
  intros Hm Hbody Hid. split; [done|]. split; [done|]. split; [done|]. split; [done|].
  by exists {[ "exists" := VBool true ]}, [].
Qed.


Lemma method_is_checked_first_witness :
  ¬ allowed Sample.get_request
  ∧ handler Sample.env0 Sample.get_request Sample.world0
    = (inr (mkResponse 405 (ErrorBody "Method not allowed")), Sample.world0)
  ∧ allowed Sample.nova_bio_request
  ∧ (∀ r, (handler Sample.env0 Sample.nova_bio_request Sample.world0).1 = inr r →
          status r ≠ 405).
Proof.
  assert (H1 : ¬ allowed Sample.get_request) by (intros [H|H]; discriminate H).
  assert (H2 : allowed Sample.nova_bio_request) by (left; reflexivity).
  split; [exact H1|]. split; [|split; [exact H2|]].
  - exact (proj1 (method_is_checked_first Sample.env0 Sample.get_request Sample.world0) H1).
  - exact (proj2 (method_is_checked_first Sample.env0 Sample.nova_bio_request Sample.world0)
             H2).
Defined.

Lemma uploads_of_a_run_witness :
  uploads (handler Sample.env0 Scenario.quiet_request Sample.world0).2 = [].
Proof.
  exact (proj2 (uploads_of_a_run Sample.env0 Scenario.quiet_request Sample.world0)
           {[ "username" := ["nova"] ]} ∅ eq_refl eq_refl).
Defined.

Lemma disk_of_a_run_witness :
  allowed Scenario.crowded_request
  ∧ disk (handler Sample.env0 Scenario.crowded_request Sample.world0).2 !! "/tmp/9f2c1a7e.png"
    = None
  ∧ is_Some (disk (handler Sample.env0 Scenario.crowded_request Sample.world0).2
             !! "/tmp/5be07d11.png")
  ∧ is_Some (disk (handler Sample.env0 Scenario.crowded_request Sample.world0).2
             !! "/tmp/c41a90e2.jpg").
Proof.
  assert (Hm : allowed Scenario.crowded_request) by (right; reflexivity).
  assert (Hfirst : ∀ entry f,
            ({[ "avatar" := ManyFiles [Sample.avatar_file; Scenario.second_file];
                "banner" := OneFile Scenario.banner_file ]} : Files) !! "avatar" = Some entry →
            first_file entry = Some f → f = Sample.avatar_file).
  { intros entry f Hentry Hf. vm_compute in Hentry. injection Hentry as <-.
    by injection Hf as <-. }
  pose proof (disk_of_a_run Sample.env0 Scenario.crowded_request ∅
                {[ "avatar" := ManyFiles [Sample.avatar_file; Scenario.second_file];
                   "banner" := OneFile Scenario.banner_file ]}
                Sample.world0 Hm eq_refl) as [_ Hkept].
  split; [exact Hm|]. split; [reflexivity|]. split.
  - apply (Hkept "avatar" (ManyFiles [Sample.avatar_file; Scenario.second_file])
             Scenario.second_file).
    + reflexivity.
    + apply list_elem_of_further, list_elem_of_here.
    + intros entry f Hentry Hf. rewrite (Hfirst entry f Hentry Hf). discriminate.
  - apply (Hkept "banner" (OneFile Scenario.banner_file) Scenario.banner_file).
    + reflexivity.
    + apply list_elem_of_here.
    + intros entry f Hentry Hf. rewrite (Hfirst entry f Hentry Hf). discriminate.
Defined.

Lemma unknown_user_stops_the_run_witness :
  handler Sample.env0 Scenario.stranger_avatar_request Sample.world0
  = (inr (mkResponse 404 (ErrorBody "User not found")),
     log_query select_exists ["0x000"]
       (decoded {[ "avatar" := ManyFiles [Sample.avatar_file] ]} Sample.world0))
  ∧ is_Some (disk (handler Sample.env0 Scenario.stranger_avatar_request Sample.world0).2
             !! "/tmp/9f2c1a7e.png").
Proof.
  destruct (unknown_user_stops_the_run Sample.env0 Scenario.stranger_avatar_request ∅
              {[ "avatar" := ManyFiles [Sample.avatar_file] ]} "0x000"
              {[ "exists" := VBool false ]} [] Sample.world0)
    as [Hrun Hfiles]; try reflexivity.
  { right; reflexivity. }
  split; [exact Hrun|].
  apply (Hfiles "avatar" (ManyFiles [Sample.avatar_file]) Sample.avatar_file);
    [reflexivity | apply list_elem_of_here].
Defined.

Lemma update_goes_through_witness :
  handler Sample.env0 Sample.nova_bio_request Sample.world0
  = (inr (mkResponse 200
            (UserBody "User updated successfully" (Some {[ "wallet" := VText "0xabc" ]}))),
     log_query (query ["username = $2"; "bio = $3"; "updated_at = CURRENT_TIMESTAMP"])
       ["0xabc"; "nova"; "hi"] (log_query select_exists ["0xabc"] Sample.world0))
  ∧ (handler Scenario.env_vanishing Sample.nova_bio_request Sample.world0).1
    = inr (mkResponse 200 (UserBody "User updated successfully" None)).
Proof.
  split.
  - refine (update_goes_through Sample.env0 Sample.nova_bio_request
              {[ "username" := ["nova"]; "bio" := ["hi"] ]} ∅ "0xabc" Sample.nova_bio
              [ {[ "wallet" := VText "0xabc" ]} ] Sample.world0 _ eq_refl eq_refl _ eq_refl).
    + apply sample_checked; [left|..]; reflexivity.
    + discriminate.
  - rewrite (update_goes_through Scenario.env_vanishing Sample.nova_bio_request
               {[ "username" := ["nova"]; "bio" := ["hi"] ]} ∅ "0xabc" Sample.nova_bio
               [] Sample.world0); [reflexivity| |reflexivity|reflexivity|discriminate|reflexivity].
    split; [left; reflexivity|]. split; [reflexivity|]. split; [reflexivity|].
    split; [reflexivity|]. by exists {[ "exists" := VBool true ]}, [].
Defined.

Lemma avatar_is_stored_witness :
  (handler Sample.env0 Sample.avatar_request Sample.world0).1
  = inr (mkResponse 200
           (UserBody "User updated successfully" (Some {[ "wallet" := VText "0xabc" ]})))
  ∧ queries (handler Sample.env0 Sample.avatar_request Sample.world0).2
    = [(select_exists, ["0xabc"]);
       (query ["avatar = $2"; "updated_at = CURRENT_TIMESTAMP"],
        ["0xabc";
         "https://res.cloudinary.com/demo/image/upload/v1700000000/user_avatars/k3x9.png"])]
  ∧ disk (handler Sample.env0 Sample.avatar_request Sample.world0).2 !! "/tmp/9f2c1a7e.png"
    = None.
Proof.
  destruct (avatar_is_stored Sample.env0 Sample.avatar_request ∅
              {[ "avatar" := ManyFiles [Sample.avatar_file] ]} "0xabc" emptyUserData
              (ManyFiles [Sample.avatar_file]) Sample.avatar_file "PNG-bytes"
              "https://res.cloudinary.com/demo/image/upload/v1700000000/user_avatars/k3x9.png"
              [ {[ "wallet" := VText "0xabc" ]} ] Sample.world0)
    as [Hrun _]; try reflexivity.
  { apply sample_checked; [right|..]; reflexivity. }
  rewrite Hrun. repeat split.
Defined.

Lemma failed_update_keeps_upload_witness :
  (handler Scenario.env_read_only Sample.avatar_request Sample.world0).1
  = inr (mkResponse 500 (ErrorBody "Failed to update user"))
  ∧ uploads (handler Scenario.env_read_only Sample.avatar_request Sample.world0).2
    = [("user_avatars", "PNG-bytes")]
  ∧ destroyed (handler Scenario.env_read_only Sample.avatar_request Sample.world0).2 = []
  ∧ disk (handler Scenario.env_read_only Sample.avatar_request Sample.world0).2
    !! "/tmp/9f2c1a7e.png" = None.
Proof.
  refine (failed_update_keeps_upload Scenario.env_read_only Sample.avatar_request ∅
            {[ "avatar" := ManyFiles [Sample.avatar_file] ]} "0xabc" emptyUserData
            (ManyFiles [Sample.avatar_file]) Sample.avatar_file "PNG-bytes"
            "https://res.cloudinary.com/demo/image/upload/v1700000000/user_avatars/k3x9.png"
            "cannot execute UPDATE in a read-only transaction" Sample.world0
            _ eq_refl eq_refl eq_refl eq_refl eq_refl eq_refl).
  split; [right; reflexivity|]. split; [reflexivity|]. split; [reflexivity|].
  split; [reflexivity|]. by exists {[ "exists" := VBool true ]}, [].
Defined.

Lemma early_failures_witness :
  handler Sample.env0 Scenario.garbled_request Sample.world0
  = (inr failed_update,
     log_console "Update error:" "bad boundary" Sample.world0)
  ∧ handler Scenario.env_offline Sample.empty_request Sample.world0
    = (inr failed_update,
       log_console "Update error:" "connect ECONNREFUSED"
         (log_query select_exists ["0xabc"] Sample.world0))
  ∧ (handler Scenario.env_rowless Sample.empty_request Sample.world0).1 = inr failed_update
  ∧ queries (handler Scenario.env_rowless Sample.empty_request Sample.world0).2
    = [(select_exists, ["0xabc"])].
Proof.
  assert (H1 : allowed Scenario.garbled_request) by (left; reflexivity).
  assert (H2 : allowed Sample.empty_request) by (left; reflexivity).
  split; [|split].
  - exact (proj1 (early_failures Sample.env0 Scenario.garbled_request Sample.world0 H1)
             "bad boundary" eq_refl).
  - exact (proj1 (proj2 (early_failures Scenario.env_offline Sample.empty_request
                           Sample.world0 H2))
             ∅ ∅ "0xabc" "connect ECONNREFUSED" eq_refl eq_refl eq_refl eq_refl).
  - exact (proj2 (proj2 (early_failures Scenario.env_rowless Sample.empty_request
                           Sample.world0 H2))
             ∅ ∅ "0xabc" eq_refl eq_refl eq_refl eq_refl).
Defined.

Lemma handler_reads_first_values_witness :
  handler Sample.env0 Scenario.noisy_request Sample.world0
  = handler Sample.env0 Scenario.quiet_request Sample.world0.
Proof.
  apply (handler_reads_first_values Sample.env0 Scenario.noisy_request Scenario.quiet_request
           {[ "username" := ["nova"; "ignored"]; "role" := ["admin"] ]}
           {[ "username" := ["nova"] ]} ∅ Sample.world0);
    try reflexivity.
  intros name Hin. unfold form_names in Hin.
  repeat (apply elem_of_cons in Hin as [->|Hin]; [reflexivity|]).
  by apply elem_of_nil in Hin.
Defined.

Lemma social_links_are_reencoded_witness :
  handler Sample.env0 Scenario.links_request Sample.world0
  = (inr (mkResponse 200
            (UserBody "User updated successfully" (Some {[ "wallet" := VText "0xabc" ]}))),
     log_query (query ["socialLinks = $2"; "updated_at = CURRENT_TIMESTAMP"])
       ["0xabc"; "[1,2]"] (log_query select_exists ["0xabc"] Sample.world0)).
Proof.
  refine (social_links_are_reencoded Sample.env0 Scenario.links_request
            {[ "socialLinks" := ["[ 1 , 2 ]"] ]} ∅ "0xabc" "[ 1 , 2 ]"
            [JNumber "1"; JNumber "2"] [ {[ "wallet" := VText "0xabc" ]} ] Sample.world0
            _ eq_refl eq_refl eq_refl eq_refl eq_refl).
  apply sample_checked; [left|..]; reflexivity.
Defined.

Lemma uploadImage_outcomes_witness :
  uploadImage Sample.env0 "/tmp/9f2c1a7e.png" Sample.world0
  = (inl "Failed to upload image to Cloudinary",
     log_console "Error uploading to Cloudinary:" "ENOENT: no such file or directory"
       Sample.world0)
  ∧ uploadImage (Sample.env [] Sample.cloud_down) "/tmp/9f2c1a7e.png" Scenario.disk_with_avatar
    = (inl "read ECONNRESET", log_upload "user_avatars" "PNG-bytes" Scenario.disk_with_avatar).
Proof.
  split.
  - exact (proj1 (uploadImage_outcomes Sample.env0 "/tmp/9f2c1a7e.png" Sample.world0) eq_refl).
  - exact (proj1 (proj2 (uploadImage_outcomes (Sample.env [] Sample.cloud_down)
                           "/tmp/9f2c1a7e.png" Scenario.disk_with_avatar))
             "PNG-bytes" eq_refl).
Defined.

Lemma deleteImage_outcomes_witness :
  (deleteImage Scenario.env_no_delete Sample.asset_url Sample.world0).1
  = inl "Failed to delete image from Cloudinary"
  ∧ ∃ earlier cause,
      console (deleteImage Scenario.env_no_delete Sample.asset_url Sample.world0).2
      = (earlier ++ [("Error deleting from Cloudinary:", cause)])%list.
Proof.
  destruct (deleteImage_outcomes Scenario.env_no_delete Sample.asset_url Sample.world0)
    as (called & _ & _ & _ & _ & _ & Hlogged).
  split; [reflexivity|].
  exact (Hlogged "Failed to delete image from Cloudinary" eq_refl).
Defined.

Lemma extract_null_cases_witness :
  (extractPublicIdFromUrl Sample.env0 Sample.foreign_url Sample.world0).1 = inr None
  ∧ (extractPublicIdFromUrl Sample.env0 "not an address" Sample.world0).2
    = log_console "Error extracting public ID:" "Invalid URL" Sample.world0.
Proof.
  split.
  - apply (proj2 (proj1 (proj2 (extract_null_cases Sample.env0 Sample.foreign_url
                                  Sample.world0)))).
    left. intros Hin. vm_compute in Hin.
    repeat (apply elem_of_cons in Hin as [Hin|Hin]; [discriminate Hin|]).
    by apply elem_of_nil in Hin.
  - exact (proj2 (proj2 (proj2 (extract_null_cases Sample.env0 "not an address"
                                  Sample.world0))) eq_refl).
Defined.
